(** * Strata token bonding SDK: quoting arithmetic of the instruction builders

    Shallow embedding of the client-side code that turns a trade request into
    the arguments of a [buyV0] / [sellV0] instruction
    (packages/spl-token-bonding/src/index.ts), of the curve configuration
    classes of the same file, of the older [sellV0Instructions] kept under
    packages/marketplace-ui, and of [humanReadablePercentage] of the swap form.
    Around them: the checks and the index search of
    [createTokenBondingInstructions], [updateTokenBondingInstructions] in its
    two versions, the amounts of [createTemporaryWSolAccount], the [errors]
    map, and the Use Max button of the swap form.

    JavaScript [number]s are IEEE-754 doubles.  They are modelled as
    rationals extended with NaN and the two infinities; every arithmetic
    operation rounds its exact result to the nearest double, ties to even,
    with gradual underflow and overflow to infinity ([JS.round]).  Zero is
    unsigned (it stands for +0).  [BN] values are unbounded integers. *)

From Stdlib Require Import ZArith QArith Qcanon Qround Qabs Qpower Bool List Ascii
  String Lia Lqa.
Import ListNotations.

Open Scope Z_scope.

(** ** Errors and fallible results *)

(** The typed errors the specification names, and [JsError msg] for what the
    code really raises: [throw new Error(msg)] and failed [assert]s. *)
Inductive error : Type :=
| Overflow
| InvalidCurveDefinition
| InvalidRoyalty
| CurveUndefined
| NoConvergence
| NoPathFound
| JsError (msg : string).

Inductive result (A : Type) : Type :=
| Ok (a : A)
| Err (e : error).

Arguments Ok {A} a.
Arguments Err {A} e.

Definition bind {A B : Type} (r : result A) (k : A -> result B) : result B :=
  match r with
  | Ok a => k a
  | Err e => Err e
  end.

Notation "'do' x <- r ; k" := (bind r (fun x => k))
  (at level 10, x name, r at level 100, k at level 200).

Fixpoint mapM {A B : Type} (f : A -> result B) (l : list A) : result (list B) :=
  match l with
  | [] => Ok []
  | a :: l' => do b <- f a; do bs <- mapM f l'; Ok (b :: bs)
  end.

(** ** JavaScript numbers *)

Module JS.

Inductive number : Type :=
| NaN
| Infinity (neg : bool)
| Fin (q : Qc).

(** An integer as a number; integers below 2^53 in magnitude are doubles. *)
Definition ofZ (z : Z) : number := Fin (Q2Qc (inject_Z z)).

Definition isNaN (x : number) : bool :=
match x with NaN => true | _ => false end.

Definition isFinite (x : number) : bool :=
match x with Fin _ => true | _ => false end.

(** Sign of a rational as a comparison with zero. *)
Definition sgn (q : Qc) : comparison := (q ?= Q2Qc 0)%Qc.

Definition neg (x : number) : number :=
match x with
| NaN => NaN
| Infinity s => Infinity (negb s)
| Fin q => Fin (- q)%Qc
end.

(** *** Rounding to binary64 *)

Definition pow2 (e : Z) : Q := (2 ^ e)%Q.

(** The exponent [e] with [2^e <= a/b < 2^(e+1)], for positive [a]. *)
Definition binade (a : Z) (b : positive) : Z :=
let e := Z.log2 a - Z.log2 (Zpos b) in
if Qle_bool (pow2 e) (a # b) then e else e - 1.

(** The nearest integer, the even one on a tie. *)
Definition nearestEven (y : Q) : Z :=
let f := Qfloor y in
match (y - inject_Z f ?= 1 # 2)%Q with
| Lt => f
| Gt => f + 1
| Eq => if Z.even f then f else f + 1
end.

(** The double nearest to [q]: 53 bits of mantissa, the least exponent of a
    unit in the last place being -1074; [None] when the result is beyond the
    largest double. *)
Definition round64 (q : Q) : option Q :=
match Qnum q with
| 0 => Some 0%Q
| _ =>
    let a := Qabs q in
    let u := Z.max (binade (Qnum a) (Qden a) - 52) (-1074) in
    let r := (inject_Z (nearestEven (a / pow2 u)) * pow2 u)%Q in
    if Qle_bool (pow2 1024) r then None
    else Some (if Qnum q <? 0 then (- r)%Q else r)
end.

Definition round (q : Qc) : number :=
match round64 q with
| Some r => Fin (Q2Qc r)
| None => Infinity (Qnum q <? 0)
end.

(** *** Arithmetic *)

Definition add (x y : number) : number :=
match x, y with
| NaN, _ | _, NaN => NaN
| Infinity s, Infinity t => if Bool.eqb s t then Infinity s else NaN
| Infinity s, Fin _ => Infinity s
| Fin _, Infinity t => Infinity t
| Fin p, Fin q => round (p + q)%Qc
end.

Definition sub (x y : number) : number := add x (neg y).

Definition mul (x y : number) : number :=
match x, y with
| NaN, _ | _, NaN => NaN
| Infinity s, Infinity t => Infinity (xorb s t)
| Infinity s, Fin q | Fin q, Infinity s =>
    match sgn q with
    | Eq => NaN
    | Gt => Infinity s
    | Lt => Infinity (negb s)
    end
| Fin p, Fin q => round (p * q)%Qc
end.

Definition div (x y : number) : number :=
match x, y with
| NaN, _ | _, NaN => NaN
| Infinity _, Infinity _ => NaN
| Infinity s, Fin q =>
    match sgn q with
    | Lt => Infinity (negb s)
    | _ => Infinity s
    end
| Fin _, Infinity _ => Fin (Q2Qc 0)
| Fin p, Fin q =>
    match sgn q with
    | Eq =>
        match sgn p with
        | Eq => NaN
        | Gt => Infinity false
        | Lt => Infinity true
        end
    | _ => round (p / q)%Qc
    end
end.

(** [Math.floor], [Math.ceil]. *)
Definition floor (x : number) : number :=
match x with
| Fin q => ofZ (Qfloor q)
| _ => x
end.

Definition ceil (x : number) : number :=
match x with
| Fin q => ofZ (Qceiling q)
| _ => x
end.

(** [Math.pow(10, d)] for a mint's [decimals] (a u8): the double nearest to
    the power, which is the power itself up to 10^22. *)
Definition pow10 (d : N) : number := round (Q2Qc (inject_Z (10 ^ Z.of_N d))).

(** A number that is a double: rounding leaves it as it is. *)
Definition isDouble (x : number) : Prop :=
match x with
| Fin q => round q = Fin q
| _ => True
end.

(** Truthiness of a number in a condition: [0] and [NaN] are falsy. *)
Definition truthy (x : number) : bool :=
match x with
| NaN => false
| Infinity _ => true
| Fin q => match sgn q with Eq => false | _ => true end
end.

(** [x != 0] and [x !== 0] for a number [x]; NaN differs from 0. *)
Definition nonZero (x : number) : bool :=
match x with
| Fin q => match sgn q with Eq => false | _ => true end
| _ => true
end.

End JS.

Import JS.

Declare Scope js_scope.
Delimit Scope js_scope with js.
Infix "+" := JS.add : js_scope.
Infix "-" := JS.sub : js_scope.
Infix "*" := JS.mul : js_scope.
Infix "/" := JS.div : js_scope.

(** Modelled from the spec: [asDecimal] of ./curves is not among the sources;
    the spec gives the royalty encoding as "integer numerator over a fixed
    denominator equal to the maximum value of an unsigned 32-bit integer". *)
Definition asDecimal (percent : number) : number :=
  (percent / ofZ 4294967295)%js.

(** The amount of target tokens to mint so that [desired] is left after the
    target royalty is taken (buyInstructions, [neededAmount]). *)
Definition neededAmount (desiredTargetAmountNum buyTargetRoyaltyPercentage : number)
  : number :=
  (desiredTargetAmountNum *
     (ofZ 1 / (ofZ 1 - asDecimal buyTargetRoyaltyPercentage)))%js.


(** ** Strings

    JavaScript strings are lists of characters. *)

Definition str : Type := list ascii.

Abbreviation lit := list_ascii_of_string.

Definition isDigit (c : ascii) : bool :=
  let n := N_of_ascii c in ((48 <=? n) && (n <=? 57))%N.

Definition digitVal (c : ascii) : Z := Z.of_N (N_of_ascii c) - 48.

Definition digitChar (d : Z) : ascii := ascii_of_N (Z.to_N (d + 48)).

(** Value of a string of decimal digits, most significant first. *)
Definition numeral (ds : str) : Z :=
  fold_left (fun acc c => acc * 10 + digitVal c) ds 0.

Fixpoint digitsFrom (fuel : nat) (n : Z) (acc : str) : str :=
  match fuel with
  | O => acc
  | S fuel' =>
      let acc' := digitChar (n mod 10) :: acc in
      if n <? 10 then acc' else digitsFrom fuel' (n / 10) acc'
  end.

(** Decimal digits of a natural number, ["0"] for zero. *)
Definition digits (n : Z) : str :=
  digitsFrom (S (Z.to_nat (Z.log2 n))) n [].

Definition zeros (n : nat) : str := repeat "0"%char n.

(** [s.split(sep)] for a one-character separator. *)
Fixpoint split (sep : ascii) (s : str) : list str :=
  match s with
  | [] => [[]]
  | ch :: s' =>
      if Ascii.eqb ch sep then [] :: split sep s'
      else
        match split sep s' with
        | piece :: rest => (ch :: piece) :: rest
        | [] => [[ch]]
        end
  end.

(** [s.slice(0, n)] and [s.padEnd(n, "0")]. *)
Definition slice0 (n : nat) (s : str) : str := firstn n s.

Definition padEnd0 (n : nat) (s : str) : str :=
  s ++ zeros (n - List.length s).

(** [x || ""] for a string that may be undefined. *)
Definition orEmpty (x : option str) : str :=
  match x with
  | Some s => s
  | None => []
  end.

Fixpoint stripTrailingZeros (s : str) : str :=
  match s with
  | [] => []
  | ch :: s' =>
      match stripTrailingZeros s' with
      | [] => if Ascii.eqb ch "0" then [] else [ch]
      | t => ch :: t
      end
  end.

(** ** Big integers (bn.js) *)

Definition BN : Type := Z.

Definition assertionFailed : error := JsError "Assertion failed".

(** [new BN(x)] for a number [x]: the constructor starts from [x || 0], so
    NaN counts as 0; then bn.js keeps the integer part and asserts that the
    magnitude is below 2^53, which fails for the infinities too. *)
Definition BN_ofNumber (x : number) : result BN :=
  match x with
  | NaN => Ok 0
  | Infinity _ => Err assertionFailed
  | Fin q =>
      let t := Z.quot (Qnum q) (Zpos (Qden q)) in
      if Z.abs t <? 2 ^ 53 then Ok t else Err assertionFailed
  end.

(** [new BN(s)] for a string in base 10: an optional minus sign, then digits;
    any other character fails bn.js's assertion. *)
Definition BN_ofString (s : str) : result BN :=
  let (negative, body) :=
    match s with
    | ch :: s' => if Ascii.eqb ch "-" then (true, s') else (false, s)
    | [] => (false, s)
    end in
  if forallb isDigit body
  then Ok (if negative then - numeral body else numeral body)
  else Err (JsError "Invalid character").

(** ** Printing and reading numbers *)

(** Least [j] with [b <= a * 10^j], for [0 < a]. *)
Fixpoint shiftsToUnit (fuel : nat) (a b : Z) : Z :=
  match fuel with
  | O => 0
  | S fuel' => if b <=? a then 0 else 1 + shiftsToUnit fuel' (a * 10) b
  end.

(** The exponent [n] with [10^(n-1) <= a/b < 10^n], for positive [a], [b]. *)
Definition decimalExponent (a b : Z) : Z :=
  if b <=? a then Z.of_nat (List.length (digits (a / b)))
  else 1 - shiftsToUnit (S (S (Z.to_nat (Z.log2 b)))) a b.

(** [q * 10^e] for an integer exponent of either sign. *)
Definition scale10 (q : Q) (e : Z) : Q :=
  if 0 <=? e then q * inject_Z (10 ^ e) else q / inject_Z (10 ^ (- e)).

(** The digits of a positive rational at [k] significant digits: the two
    integers [m] around [q / 10^(n-k)], the nearer one first (the even one on
    a tie), each with the exponent [n] of [0.m * 10^n]. *)
Definition digitsAt (q : Q) (k : Z) : list (Z * Z) :=
  let n := decimalExponent (Qnum q) (Zpos (Qden q)) in
  let y := scale10 q (k - n) in
  let lo := Qfloor y in
  let norm := fun m => if m =? 10 ^ k then (10 ^ (k - 1), n + 1) else (m, n) in
  match (y - inject_Z lo ?= 1 # 2)%Q with
  | Lt => [norm lo; norm (lo + 1)]
  | Gt => [norm (lo + 1); norm lo]
  | Eq => if Z.even lo then [norm lo; norm (lo + 1)] else [norm (lo + 1); norm lo]
  end.

(** Whether the [k] digits [m] at exponent [n] denote the double [q]:
    [10^(k-1) <= m < 10^k] and the Number value of [m * 10^(n-k)] is [q]. *)
Definition readsBack (q : Q) (k : Z) (c : Z * Z) : bool :=
  let (m, n) := c in
  (10 ^ (k - 1) <=? m) && (m <? 10 ^ k)
  && match round64 (scale10 (inject_Z m) (n - k)) with
     | Some r => Qeq_bool r q
     | None => false
     end.

(** The least number of digits, from [k] on, that denote [q]. *)
Fixpoint shortest (fuel : nat) (k : Z) (q : Q) : option (Z * Z) :=
  match fuel with
  | O => None
  | S fuel' =>
      match find (readsBack q k) (digitsAt q k) with
      | Some c => Some c
      | None => shortest fuel' (k + 1) q
      end
  end.

(** Significant digits and exponent of a positive number, as Number::toString
    of ECMAScript chooses them: as few digits as denote the double, and
    among those the nearest to it; 17 digits always suffice.  (A rational
    that is no double gets its 17 nearest digits, without trailing zeros.) *)
Definition significand (q : Q) : str * Z :=
  match shortest 17 1 q with
  | Some (m, n) => (stripTrailingZeros (digits m), n)
  | None =>
      let n := decimalExponent (Qnum q) (Zpos (Qden q)) in
      let m := Qfloor (scale10 q (17 - n) + (1 # 2)) in
      let (m', n') := if m =? 10 ^ 17 then (10 ^ 16, n + 1) else (m, n) in
      (stripTrailingZeros (digits m'), n')
  end.

(** Number::toString of ECMAScript on digits [s] (of length [k]) and exponent
    [n]: plain notation for [-6 < n <= 21], exponent notation otherwise. *)
Definition formatDecimal (s : str) (n : Z) : str :=
  let k := Z.of_nat (List.length s) in
  if (k <=? n) && (n <=? 21) then s ++ zeros (Z.to_nat (n - k))
  else if (0 <? n) && (n <=? 21) then
    firstn (Z.to_nat n) s ++ lit "." ++ skipn (Z.to_nat n) s
  else if (-6 <? n) && (n <=? 0) then
    lit "0." ++ zeros (Z.to_nat (- n)) ++ s
  else
    let e := n - 1 in
    let sign := if e <? 0 then lit "-" else lit "+" in
    match s with
    | [d] => [d] ++ lit "e" ++ sign ++ digits (Z.abs e)
    | d :: ds => [d] ++ lit "." ++ ds ++ lit "e" ++ sign ++ digits (Z.abs e)
    | [] => []
    end.

(** [x.toString()]. *)
Definition toString (x : number) : str :=
  match x with
  | NaN => lit "NaN"
  | Infinity false => lit "Infinity"
  | Infinity true => lit "-Infinity"
  | Fin q =>
      match sgn q with
      | Eq => lit "0"
      | Gt => let (s, n) := significand q in formatDecimal s n
      | Lt => let (s, n) := significand (- q) in lit "-" ++ formatDecimal s n
      end
  end.

Fixpoint span (p : ascii -> bool) (s : str) : str * str :=
  match s with
  | [] => ([], [])
  | ch :: s' =>
      if p ch then let (a, b) := span p s' in (ch :: a, b) else ([], s)
  end.

Definition signed (negative : bool) (x : number) : number :=
  if negative then JS.neg x else x.

(** An optional sign in front of a numeral. *)
Definition signOf (s : str) : bool * str :=
  match s with
  | ch :: s' =>
      if Ascii.eqb ch "-" then (true, s')
      else if Ascii.eqb ch "+" then (false, s')
      else (false, s)
  | [] => (false, s)
  end.

(** Exponent part of a decimal literal: nothing, or [e] / [E], an optional
    sign and at least one digit. *)
Definition exponentPart (s : str) : option Z :=
  match s with
  | [] => Some 0
  | ch :: s' =>
      if Ascii.eqb ch "e" || Ascii.eqb ch "E" then
        let (negative, ds) := signOf s' in
        match ds with
        | [] => None
        | _ => if forallb isDigit ds
               then Some (if negative then - numeral ds else numeral ds)
               else None
        end
      else None
  end.

(** [Number(s)] on a string: the empty string is 0, then an optional sign
    followed by [Infinity] or by a decimal literal with optional fraction and
    exponent; anything else is NaN.  (White space and the 0x, 0o, 0b literals
    are left out: [toString] prints none.)  The value is the numeral's own:
    [toU128], the one caller, only asks whether it is NaN or infinite, which
    rounding to a double does not change for the part that [toString] prints
    before the point; [dec] below rounds it to the double a literal denotes. *)
Definition Number (s : str) : number :=
  match s with
  | [] => ofZ 0
  | _ =>
      let (negative, body) := signOf s in
      if list_eq_dec ascii_dec body (lit "Infinity") then Infinity negative
      else
        let (ip, r1) := span isDigit body in
        let (fp, r2) :=
          match r1 with
          | ch :: t => if Ascii.eqb ch "." then span isDigit t else ([], r1)
          | [] => ([], r1)
          end in
        match ip ++ fp, exponentPart r2 with
        | _ :: _, Some e =>
            signed negative
              (Fin (Q2Qc (scale10 (inject_Z (numeral (ip ++ fp)))
                            (e - Z.of_nat (List.length fp)))))
        | _, _ => NaN
        end
  end.

(** ** toU128 *)

Inductive NumOrBN : Type :=
| Num (x : number)
| Big (b : BN).

(**
<<
export function toU128(num: number | BN): BN {
  if (BN.isBN(num)) { return num; }
  const [beforeDec, afteDec] = num.toString().split(".");
  if (isNaN(Number(beforeDec)) || !isFinite(Number(beforeDec))) {
    return new BN(0);
  }
  return new BN(
    `${beforeDec || ""}${(afteDec || "").slice(0, 12).padEnd(12, "0")}`
  );
}
>> *)
Definition toU128 (num : NumOrBN) : result BN :=
  match num with
  | Big b => Ok b
  | Num x =>
      let parts := split "." (toString x) in
      let beforeDec := nth_error parts 0 in
      let afteDec := nth_error parts 1 in
      let n := match beforeDec with Some s => Number s | None => NaN end in
      if JS.isNaN n || negb (JS.isFinite n) then BN_ofNumber (ofZ 0)
      else BN_ofString (orEmpty beforeDec ++ padEnd0 12 (slice0 12 (orEmpty afteDec)))
  end.


(** ** Curve configurations *)

(** The raw curve definition of the generated IDL types. *)
Module Raw.

Record ExponentialCurveV0 : Type := {
  c : BN;
  b : BN;
  pow : number;
  frac : number
}.

(** The raw primitive curve: a tagged union, of which this SDK builds the
    exponential variant. *)
Inductive PrimitiveCurve : Type :=
| exponentialCurveV0 (e : ExponentialCurveV0).

Record TimeCurveV0 : Type := {
  offset : BN;
  curve : PrimitiveCurve
}.

Record TimeV0 : Type := { curves : list TimeCurveV0 }.

Inductive PiecewiseCurve : Type :=
| timeV0 (t : TimeV0).

Record CurveV0 : Type := { definition : PiecewiseCurve }.

End Raw.

Import Raw(PrimitiveCurve, CurveV0).

(** [interface IPrimitiveCurve { toRawPrimitiveConfig(): any }] *)
Class IPrimitiveCurve (A : Type) : Type := {
  toRawPrimitiveConfig : A -> PrimitiveCurve
}.

(** [interface ICurveConfig { toRawConfig(): CurveV0 }] *)
Class ICurveConfig (A : Type) : Type := {
  toRawConfig : A -> CurveV0
}.

Module ExponentialCurveConfig.

Record t : Type := {
  c : BN;
  b : BN;
  pow : number;
  frac : number
}.

Definition default {A : Type} (x : option A) (d : A) : A :=
  match x with
  | Some a => a
  | None => d
  end.

(** The constructor, with its defaults [c = 1, b = 0, pow = 1, frac = 1]. *)
Definition new (c b : option NumOrBN) (pow frac : option number) : result t :=
  do c' <- toU128 (default c (Num (ofZ 1)));
  do b' <- toU128 (default b (Num (ofZ 0)));
  Ok {| c := c'; b := b'; pow := default pow (ofZ 1); frac := default frac (ofZ 1) |}.

#[global] Instance primitive : IPrimitiveCurve t := {
  toRawPrimitiveConfig this :=
    Raw.exponentialCurveV0
      {| Raw.c := c this;
         Raw.b := b this;
         Raw.pow := pow this;
         Raw.frac := frac this |}
}.

#[global] Instance config : ICurveConfig t := {
  toRawConfig this :=
    {| Raw.definition :=
         Raw.timeV0
           {| Raw.curves :=
                [ {| Raw.offset := 0;
                     Raw.curve := toRawPrimitiveConfig this |} ] |} |}
}.

End ExponentialCurveConfig.

Module TimeCurveConfig.

Section WithPrimitive.

Context {P : Type} `{IPrimitiveCurve P}.

Record entry : Type := {
  curve : P;
  offset : BN
}.

Record t : Type := { curves : list entry }.

Definition empty : t := {| curves := [] |}.

(**
<<
addCurve(timeOffset: number, curve: IPrimitiveCurve): TimeCurveConfig {
  if (this.curves.length == 0 && timeOffset != 0) {
    throw new Error("First time offset must be 0");
  }
  this.curves.push({ curve, offset: new BN(timeOffset) });
  return this;
}
>> *)
Definition addCurve (this : t) (timeOffset : number) (curve : P) : result t :=
  if (Nat.eqb (List.length (curves this)) 0) && nonZero timeOffset
  then Err (JsError "First time offset must be 0")
  else
    do offset <- BN_ofNumber timeOffset;
    Ok {| curves := curves this ++ [ {| curve := curve; offset := offset |} ] |}.

(** A chain [new TimeCurveConfig().addCurve(o1, c1).addCurve(o2, c2)...]. *)
Fixpoint addCurves (this : t) (calls : list (number * P)) : result t :=
  match calls with
  | [] => Ok this
  | (timeOffset, curve) :: calls' =>
      do this' <- addCurve this timeOffset curve;
      addCurves this' calls'
  end.

#[global] Instance config : ICurveConfig t := {
  toRawConfig this :=
    {| Raw.definition :=
         Raw.timeV0
           {| Raw.curves :=
                map (fun e =>
                       {| Raw.curve := toRawPrimitiveConfig (curve e);
                          Raw.offset := offset e |})
                    (curves this) |} |}
}.

End WithPrimitive.

Arguments entry P : clear implicits.
Arguments t P : clear implicits.

End TimeCurveConfig.


(** ** Instruction builders *)

Record MintInfo : Type := {
  supply : BN;
  decimals : N
}.

Record TokenBondingV0 : Type := {
  buyBaseRoyaltyPercentage : number;
  buyTargetRoyaltyPercentage : number;
  sellBaseRoyaltyPercentage : number;
  sellTargetRoyaltyPercentage : number;
  sellFrozen : bool
}.

(** [IPricingCurve] of ./curves: the pricing methods the builders call.  The
    implementations are not among the sources; the builders are modelled
    over an arbitrary one. *)
Module IPricingCurve.

Record t : Type := {
  buyTargetAmount : number -> number -> number -> number;
  buyTargetAmountRootEstimates : number -> number -> list number;
  buyWithBaseAmount : number -> number -> number -> number;
  buyWithBaseRootEstimates : number -> number -> list number;
  sellTargetAmount : number -> number -> number -> number
}.

End IPricingCurve.

Module BuyV0Args.

Record BuyTargetAmountV0 : Type := {
  targetAmount : BN;
  maximumPrice : BN
}.

Record BuyWithBaseV0 : Type := {
  baseAmount : BN;
  minimumTargetAmount : BN
}.

Record t : Type := {
  buyTargetAmount : option BuyTargetAmountV0;
  buyWithBase : option BuyWithBaseV0;
  rootEstimates : option (list BN)
}.

End BuyV0Args.

Module SellV0Args.

Record t : Type := {
  targetAmount : BN;
  minimumPrice : BN;
  rootEstimates : list BN
}.

End SellV0Args.

(** Truthiness of an optional amount: [undefined] is falsy, a [BN] object is
    truthy, a number is truthy unless it is 0 or NaN. *)
Definition given (amount : option NumOrBN) : option NumOrBN :=
  match amount with
  | Some (Big b) => Some (Big b)
  | Some (Num x) => if JS.truthy x then Some (Num x) else None
  | None => None
  end.

Section Builders.

(** [amountAsNum] of ./curves, not among the sources. *)
Variable amountAsNum : BN -> MintInfo -> number.

Variable curve : IPricingCurve.t.

Definition toNumber (numberOrBn : NumOrBN) (mint : MintInfo) : number :=
  match numberOrBn with
  | Big b => amountAsNum b mint
  | Num x => x
  end.

Definition toBN (numberOrBn : NumOrBN) (mint : MintInfo) : result BN :=
  match numberOrBn with
  | Big b => Ok b
  | Num x => BN_ofNumber (JS.ceil (x * pow10 (decimals mint))%js)
  end.

(** The mutable locals of [buyInstructions]. *)
Record BuyLocals : Type := {
  l_buyTargetAmount : option BuyV0Args.BuyTargetAmountV0;
  l_buyWithBase : option BuyV0Args.BuyWithBaseV0;
  l_rootEstimates : option (list number);
  l_maxPrice : number
}.

Definition initialLocals : BuyLocals :=
  {| l_buyTargetAmount := None;
     l_buyWithBase := None;
     l_rootEstimates := None;
     l_maxPrice := ofZ 0 |}.

(** [if (desiredTargetAmount) { ... }] *)
Definition buyByTarget (acct : TokenBondingV0) (targetMint baseMint : MintInfo)
    (desiredTargetAmount : option NumOrBN) (slippage : number)
    (l : BuyLocals) : result BuyLocals :=
  match given desiredTargetAmount with
  | None => Ok l
  | Some desired =>
      let desiredTargetAmountNum := toNumber desired targetMint in
      let needed :=
        neededAmount desiredTargetAmountNum (buyTargetRoyaltyPercentage acct) in
      let curveAmount :=
        IPricingCurve.buyTargetAmount curve desiredTargetAmountNum
          (buyBaseRoyaltyPercentage acct) (buyTargetRoyaltyPercentage acct) in
      let maxPrice := (curveAmount * (ofZ 1 + slippage))%js in
      let rootEstimates :=
        IPricingCurve.buyTargetAmountRootEstimates curve desiredTargetAmountNum
          (buyTargetRoyaltyPercentage acct) in
      do targetAmount <-
        BN_ofNumber (JS.floor (needed * pow10 (decimals targetMint))%js);
      do maximumPrice <- toBN (Num maxPrice) baseMint;
      Ok {| l_buyTargetAmount :=
              Some {| BuyV0Args.targetAmount := targetAmount;
                      BuyV0Args.maximumPrice := maximumPrice |};
            l_buyWithBase := l_buyWithBase l;
            l_rootEstimates := Some rootEstimates;
            l_maxPrice := maxPrice |}
  end.

(** [if (baseAmount) { ... }] *)
Definition buyByBase (acct : TokenBondingV0) (targetMint baseMint : MintInfo)
    (baseAmount : option NumOrBN) (slippage : number)
    (l : BuyLocals) : result BuyLocals :=
  match given baseAmount with
  | None => Ok l
  | Some base =>
      let baseAmountNum := toNumber base baseMint in
      let min :=
        (IPricingCurve.buyWithBaseAmount curve baseAmountNum
           (buyBaseRoyaltyPercentage acct) (buyTargetRoyaltyPercentage acct)
         * (ofZ 1 - slippage))%js in
      let rootEstimates :=
        IPricingCurve.buyWithBaseRootEstimates curve baseAmountNum
          (buyBaseRoyaltyPercentage acct) in
      do baseAmount' <- toBN base baseMint;
      do minimumTargetAmount <-
        BN_ofNumber (JS.ceil (min * pow10 (decimals targetMint))%js);
      Ok {| l_buyTargetAmount := l_buyTargetAmount l;
            l_buyWithBase :=
              Some {| BuyV0Args.baseAmount := baseAmount';
                      BuyV0Args.minimumTargetAmount := minimumTargetAmount |};
            l_rootEstimates := Some rootEstimates;
            l_maxPrice := baseAmountNum |}
  end.

(** [rootEstimates?.map(toU128)] *)
Definition mapEstimates (rootEstimates : option (list number))
  : result (option (list BN)) :=
  match rootEstimates with
  | None => Ok None
  | Some es => do bs <- mapM toU128 (map Num es); Ok (Some bs)
  end.

(** The arguments [buyInstructions] passes to [instruction.buyV0], the
    account look-ups having succeeded. *)
Definition buyInstructions (acct : TokenBondingV0) (targetMint baseMint : MintInfo)
    (desiredTargetAmount baseAmount : option NumOrBN) (slippage : number)
  : result BuyV0Args.t :=
  do l1 <- buyByTarget acct targetMint baseMint desiredTargetAmount slippage
             initialLocals;
  do l2 <- buyByBase acct targetMint baseMint baseAmount slippage l1;
  do estimates <- mapEstimates (l_rootEstimates l2);
  Ok {| BuyV0Args.buyTargetAmount := l_buyTargetAmount l2;
        BuyV0Args.buyWithBase := l_buyWithBase l2;
        BuyV0Args.rootEstimates := estimates |}.

(** The arguments [sellInstructions] passes to [instruction.sellV0]. *)
Definition sellInstructions (acct : TokenBondingV0) (targetMint baseMint : MintInfo)
    (targetAmount : NumOrBN) (slippage : number) : result SellV0Args.t :=
  if sellFrozen acct then Err (JsError "Sell is frozen on this bonding curve")
  else
    let targetAmountNum := toNumber targetAmount targetMint in
    let reclaimedAmount :=
      IPricingCurve.sellTargetAmount curve targetAmountNum
        (sellBaseRoyaltyPercentage acct) (sellTargetRoyaltyPercentage acct) in
    let minPrice :=
      JS.ceil (reclaimedAmount * (ofZ 1 - slippage) * pow10 (decimals baseMint))%js in
    do targetAmount' <- toBN targetAmount targetMint;
    do minimumPrice <- BN_ofNumber minPrice;
    do estimates <-
      mapM toU128
        (map Num
           (IPricingCurve.buyTargetAmountRootEstimates curve targetAmountNum
              (sellTargetRoyaltyPercentage acct)));
    Ok {| SellV0Args.targetAmount := targetAmount';
          SellV0Args.minimumPrice := minimumPrice;
          SellV0Args.rootEstimates := estimates |}.

End Builders.

(** The earlier version of the SDK kept under packages/marketplace-ui:
    [sellV0Instructions] with a logarithmic curve and no royalties on sale. *)
Module Legacy.

Record SellV0Args : Type := {
  targetAmount : BN;
  minimumPrice : BN
}.

Section Pricing.

(** [LogCurveV0], [amountAsNum], [supplyAsNum] and [startFinishLogCurve]
    of ./pricing, not among the sources. *)
Variable LogCurveV0 : Type.
Variable amountAsNum : BN -> MintInfo -> number.
Variable supplyAsNum : MintInfo -> number.
Variable startFinishLogCurve : LogCurveV0 -> number -> number -> number.

Definition sellV0Instructions (curve : LogCurveV0) (targetMint baseMint : MintInfo)
    (targetAmount : BN) (slippage : number) : result SellV0Args :=
  let targetAmountNum := amountAsNum targetAmount targetMint in
  let reclaimedAmount :=
    startFinishLogCurve curve
      (supplyAsNum targetMint - targetAmountNum)%js targetAmountNum in
  let minPrice :=
    JS.ceil
      (reclaimedAmount * (ofZ 1 - slippage) * pow10 (decimals targetMint))%js in
  do minimumPrice <- BN_ofNumber minPrice;
  Ok {| targetAmount := targetAmount; minimumPrice := minimumPrice |}.

End Pricing.

End Legacy.

(** ** The swap form *)

(** [x.toFixed(f)] of ECMAScript: the integer [n] nearest to [x * 10^f], the
    larger one on a tie, printed with [f] digits after the point. *)
Definition toFixed (x : number) (f : nat) : str :=
  match x with
  | Fin q =>
      let (sign, q') :=
        match sgn q with
        | Lt => (lit "-", (- q)%Qc)
        | _ => ([], q)
        end in
      if Qle_bool (inject_Z (10 ^ 21)) q' then toString x
      else
        let n := Qfloor (q' * inject_Z (10 ^ Z.of_nat f) + (1 # 2)) in
        let m := digits n in
        let m' :=
          if Nat.leb (List.length m) f
          then zeros (f + 1 - List.length m) ++ m
          else m in
        let k := List.length m' in
        match f with
        | O => sign ++ m'
        | _ => sign ++ firstn (k - f) m' ++ lit "." ++ skipn (k - f) m'
        end
  | _ => toString x
  end.

Inductive StringOrNumber : Type :=
| AsString (s : str)
| AsNumber (x : number).

(**
<<
const humanReadablePercentage = (u32: number) => {
  if (u32 && u32 !== 0) {
    return ((u32 / 4294967295) * 100).toFixed(2);
  }
  return 0;
};
>>
    [None] stands for a missing ([undefined]) argument. *)
Definition humanReadablePercentage (u32 : option number) : StringOrNumber :=
  match u32 with
  | Some x =>
      if JS.truthy x && JS.nonZero x
      then AsString (toFixed ((x / ofZ 4294967295) * ofZ 100)%js 2)
      else AsNumber (ofZ 0)
  | None => AsNumber (ofZ 0)
  end.


(** ** Comparisons *)

Module Compare.

(** [x >= y]; false as soon as one side is NaN. *)
Definition ge (x y : number) : bool :=
  match x, y with
  | NaN, _ | _, NaN => false
  | Infinity s, Infinity t => negb s || t
  | Infinity s, Fin _ => negb s
  | Fin _, Infinity t => t
  | Fin p, Fin q => Qle_bool q p
  end.

(** [x > y] *)
Definition gt (x y : number) : bool :=
  match x, y with
  | NaN, _ | _, NaN => false
  | Infinity s, Infinity t => negb s && t
  | Infinity s, Fin _ => negb s
  | Fin _, Infinity t => t
  | Fin p, Fin q => negb (Qle_bool p q)
  end.

End Compare.

(** ** The rest of the swap form *)

Module SwapForm.

(** [+(topAmount || 0)] *)
Definition entered (topAmount : option number) : number :=
  match topAmount with
  | Some x => if JS.truthy x then x else ofZ 0
  | None => ofZ 0
  end.

(** [ownedBase >= +(topAmount || 0)] *)
Definition hasBaseAmount (ownedBase : number) (topAmount : option number) : bool :=
  Compare.ge ownedBase (entered topAmount).

(** [+(topAmount || 0) > spendCap] *)
Definition moreThanSpendCap (topAmount : option number) (spendCap : number) : bool :=
  Compare.gt (entered topAmount) spendCap.

(** The amount [handleUseMax] puts in the form:
    [ownedBase >= spendCap ? spendCap : ownedBase]. *)
Definition handleUseMax (ownedBase spendCap : number) : number :=
  if Compare.ge ownedBase spendCap then spendCap else ownedBase.

(** The amount shown on the button:
    [ownedBase > spendCap ? spendCap : ownedBase]. *)
Definition useMaxLabel (ownedBase spendCap : number) : number :=
  if Compare.gt ownedBase spendCap then spendCap else ownedBase.

(** [isDisabled] of the trade button. *)
Definition tradeDisabled (connected : bool) (ownedBase spendCap : number)
    (topAmount : option number) : bool :=
  negb connected || negb (hasBaseAmount ownedBase topAmount)
  || moreThanSpendCap topAmount spendCap.

End SwapForm.

(** ** Creating and updating a bonding curve *)

(** A public key, by its base58 text. *)
Definition PublicKey : Type := string.

(** A value that may be missing ([undefined]) or explicitly [null]. *)
Inductive Nullable (A : Type) : Type :=
| Undefined
| Null
| Value (a : A).

Arguments Undefined {A}.
Arguments Null {A}.
Arguments Value {A} a.

Definition isSome {A : Type} (x : option A) : bool :=
  match x with Some _ => true | None => false end.

(** The checks at the head of [createTokenBondingInstructions]:
<<
    if (!targetMint) {
      if (sellTargetRoyalties || buyTargetRoyalties) {
        throw new Error("Cannot define target royalties if mint is not defined");
      }
      if (!targetMintDecimals) {
        throw new Error("Cannot define mint without decimals ");
      }
    }
>> *)
Definition checkTargetMint
    (targetMint sellTargetRoyalties buyTargetRoyalties : option PublicKey)
    (targetMintDecimals : option number) : result unit :=
  match targetMint with
  | Some _ => Ok tt
  | None =>
      if isSome sellTargetRoyalties || isSome buyTargetRoyalties
      then Err (JsError "Cannot define target royalties if mint is not defined")
      else
        match targetMintDecimals with
        | Some d =>
            if JS.truthy d then Ok tt
            else Err (JsError "Cannot define mint without decimals ")
        | None => Err (JsError "Cannot define mint without decimals ")
        end
  end.

(** [while (await getTokenBondingAccount()) { indexToUse++; }], the accounts
    that exist being given by [taken]; [None] when the search is still going
    on after [fuel] look-ups. *)
Fixpoint findFreeIndex (fuel : nat) (taken : Z -> bool) (indexToUse : Z) : option Z :=
  match fuel with
  | O => None
  | S fuel' =>
      if taken indexToUse then findFreeIndex fuel' taken (indexToUse + 1)
      else Some indexToUse
  end.

(**
<<
    let indexToUse = index || 0;
    ...
    if (!index) {
      // Find an empty voucher account
      while (await getTokenBondingAccount()) { indexToUse++; }
    } else {
      indexToUse = index;
    }
>> *)
Definition bondingIndex (fuel : nat) (taken : Z -> bool) (index : option number)
  : option number :=
  match index with
  | Some i =>
      if JS.truthy i then Some i
      else option_map ofZ (findFreeIndex fuel taken 0)
  | None => option_map ofZ (findFreeIndex fuel taken 0)
  end.

(** [a || b] for numbers, the first of which may be missing. *)
Definition orNumber (a : option number) (b : number) : number :=
  match a with
  | Some x => if JS.truthy x then x else b
  | None => b
  end.

Module UpdateTokenBonding.

(** The fields of the bonding account the update reads. *)
Record Account : Type := {
  royalties : TokenBondingV0;
  authority : option PublicKey;
  buyFrozen : bool
}.

Record UpdateTokenBondingV0Args : Type := {
  a_buyBaseRoyaltyPercentage : number;
  a_buyTargetRoyaltyPercentage : number;
  a_sellBaseRoyaltyPercentage : number;
  a_sellTargetRoyaltyPercentage : number;
  a_tokenBondingAuthority : option PublicKey;
  a_buyFrozen : bool
}.

(** The optional arguments of the caller. *)
Record Request : Type := {
  r_buyBaseRoyaltyPercentage : option number;
  r_buyTargetRoyaltyPercentage : option number;
  r_sellBaseRoyaltyPercentage : option number;
  r_sellTargetRoyaltyPercentage : option number;
  r_authority : Nullable PublicKey;
  r_buyFrozen : option bool
}.

Section WithPercent.

(** [percent] of spl-utils, not among the sources. *)
Variable percent : option number -> option number.

(** The arguments [updateTokenBondingInstructions] passes to
    [instruction.updateTokenBondingV0]. *)
Definition updateTokenBondingInstructions (acct : Account) (req : Request)
  : result UpdateTokenBondingV0Args :=
  match authority acct with
  | None =>
      Err (JsError "Cannot update a token bonding account that has no authority")
  | Some current =>
      Ok {| a_buyBaseRoyaltyPercentage :=
              orNumber (percent (r_buyBaseRoyaltyPercentage req))
                (buyBaseRoyaltyPercentage (royalties acct));
            a_buyTargetRoyaltyPercentage :=
              orNumber (percent (r_buyTargetRoyaltyPercentage req))
                (buyTargetRoyaltyPercentage (royalties acct));
            a_sellBaseRoyaltyPercentage :=
              orNumber (percent (r_sellBaseRoyaltyPercentage req))
                (sellBaseRoyaltyPercentage (royalties acct));
            a_sellTargetRoyaltyPercentage :=
              orNumber (percent (r_sellTargetRoyaltyPercentage req))
                (sellTargetRoyaltyPercentage (royalties acct));
            a_tokenBondingAuthority :=
              match r_authority req with
              | Null => None
              | Value k => Some k
              | Undefined => Some current
              end;
            a_buyFrozen :=
              match r_buyFrozen req with
              | None => buyFrozen acct
              | Some f => f
              end |}
  end.

End WithPercent.

End UpdateTokenBonding.

(** The update of the earlier SDK: percentages are taken as they come. *)
Module LegacyUpdate.

Record Account : Type := {
  baseRoyaltyPercentage : number;
  targetRoyaltyPercentage : number;
  authority : option PublicKey;
  buyFrozen : bool
}.

Record UpdateTokenBondingV0Args : Type := {
  a_baseRoyaltyPercentage : number;
  a_targetRoyaltyPercentage : number;
  a_tokenBondingAuthority : option PublicKey;
  a_buyFrozen : bool
}.

Definition updateTokenBondingInstructions (acct : Account)
    (baseRoyaltyPercentage' targetRoyaltyPercentage' : option number)
    (authority' : Nullable PublicKey) (buyFrozen' : option bool)
  : result UpdateTokenBondingV0Args :=
  match authority acct with
  | None =>
      Err (JsError "Cannot update a token bonding account that has no authority")
  | Some current =>
      Ok {| a_baseRoyaltyPercentage :=
              orNumber baseRoyaltyPercentage' (baseRoyaltyPercentage acct);
            a_targetRoyaltyPercentage :=
              orNumber targetRoyaltyPercentage' (targetRoyaltyPercentage acct);
            a_tokenBondingAuthority :=
              match authority' with
              | Null => None
              | Value k => Some k
              | Undefined => Some current
              end;
            a_buyFrozen :=
              match buyFrozen' with
              | None => buyFrozen acct
              | Some f => f
              end |}
  end.

End LegacyUpdate.

(** ** Wrapped SOL *)

Module WrappedSol.

(** The amounts of the [buyWrappedSolV0] and [sellWrappedSolV0] instructions
    of [createTemporaryWSolAccount]. *)
Record Amounts : Type := {
  buyAmount : BN;
  sellAll : bool;
  sellAmount : BN
}.

(**
<<
  amount: toBN(amount, mint).add(new BN(1)), // In case of rounding errors
  ...
  all: true,
  amount: toBN(amount, mint),
>> *)
Definition createTemporaryWSolAccount (amount : number) (mint : MintInfo)
  : result Amounts :=
  do bought <- toBN (Num amount) mint;
  do sold <- toBN (Num amount) mint;
  Ok {| buyAmount := bought + 1; sellAll := true; sellAmount := sold |}.

(** The temporary account [buyInstructions] opens when no source is given
    and the base mint is the wrapped SOL mint of the program state (whose
    mint information is then the base mint's): it is asked for [maxPrice]. *)
Definition buyFunding (amountAsNum : BN -> MintInfo -> number)
    (curve : IPricingCurve.t) (acct : TokenBondingV0)
    (targetMint baseMint : MintInfo)
    (desiredTargetAmount baseAmount : option NumOrBN) (slippage : number)
  : result Amounts :=
  do l1 <- buyByTarget amountAsNum curve acct targetMint baseMint
             desiredTargetAmount slippage initialLocals;
  do l2 <- buyByBase amountAsNum curve acct targetMint baseMint baseAmount
             slippage l1;
  createTemporaryWSolAccount (l_maxPrice l2) baseMint.

End WrappedSol.

(** ** Program errors *)

Record IdlError : Type := {
  code : Z;
  name : str;
  msg : str
}.

(** A [Map<number, string>], by its [get]. *)
Definition ErrorMap : Type := Z -> option str.

Definition mapSet (m : ErrorMap) (k : Z) (v : str) : ErrorMap :=
  fun k' => if k' =? k then Some v else m k'.

(**
<<
  get errors() {
    return this.program.idl.errors.reduce((acc, err) => {
      acc.set(err.code, `${err.name}: ${err.msg}`);
      return acc;
    }, new Map<number, string>());
  }
>> *)
Definition errors (idlErrors : list IdlError) : ErrorMap :=
  fold_left
    (fun acc err => mapSet acc (code err) (name err ++ lit ": " ++ msg err))
    idlErrors (fun _ => None).

(** ** Notions used in the statements *)

(** What [toFixed] prints from the rounded integer [k], for two digits. *)
Definition fixed2 (k : Z) : str :=
  let m := digits k in
  let m' := if Nat.leb (List.length m) 2 then zeros (3 - List.length m) ++ m else m in
  firstn (List.length m' - 2) m' ++ lit "." ++ skipn (List.length m' - 2) m'.

Definition hundredths (k : Z) : str :=
  digits (k / 100) ++ lit "." ++ [digitChar (k / 10 mod 10); digitChar (k mod 10)].

Definition str_eqb (s t : str) : bool :=
  if list_eq_dec ascii_dec s t then true else false.

Definition allDigits (s : str) : Prop := forallb isDigit s = true.

(** The piece before the first point. *)
Definition firstPiece (s : str) : str := hd [] (split "." s).

(** What can stand before the point of a printed positive number: digits,
    or one digit and an exponent. *)
Inductive integerPart : str -> Prop :=
| plainPart (ip : str) : ip <> [] -> allDigits ip -> integerPart ip
| scientificPart (d sg : ascii) (e : str) :
    isDigit d = true -> sg = "-"%char \/ sg = "+"%char ->
    e <> [] -> allDigits e ->
    integerPart (d :: "e"%char :: sg :: e).

(** The error of a sale on a curve whose sales are frozen. *)
Definition sellFrozenError : error :=
  JsError "Sell is frozen on this bonding curve".

(** The value of the decimal numeral [ip.fp]. *)
Definition printedValue (ip fp : str) : Q :=
  inject_Z (numeral (ip ++ fp)) / inject_Z (10 ^ Z.of_nat (List.length fp)).

(** Test fixtures: the double that a decimal literal denotes, a pricing curve
    with constant answers and an [amountAsNum] that divides by the mint's
    power of ten. *)
Definition dec (s : string) : number :=
  match Number (lit s) with
  | Fin q => round q
  | x => x
  end.

Definition sampleCurve : IPricingCurve.t :=
  {| IPricingCurve.buyTargetAmount := fun _ _ _ => ofZ 7;
     IPricingCurve.buyTargetAmountRootEstimates := fun _ _ => [dec "1.5"; ofZ 2];
     IPricingCurve.buyWithBaseAmount := fun _ _ _ => ofZ 3;
     IPricingCurve.buyWithBaseRootEstimates := fun _ _ => [dec "0.25"; ofZ 4; ofZ 9];
     IPricingCurve.sellTargetAmount := fun _ _ _ => ofZ 2 |}.

Definition sampleAmountAsNum (amount : BN) (mint : MintInfo) : number :=
  (ofZ amount / pow10 (decimals mint))%js.

Definition sampleMint (d : N) : MintInfo := {| supply := 0; decimals := d |}.

Definition sampleBonding (buyTarget : number) : TokenBondingV0 :=
  {| buyBaseRoyaltyPercentage := ofZ 0;
     buyTargetRoyaltyPercentage := buyTarget;
     sellBaseRoyaltyPercentage := ofZ 0;
     sellTargetRoyaltyPercentage := ofZ 0;
     sellFrozen := false |}.

(** The royalty denominator, as a rational. *)
Definition u32Max : Qc := Q2Qc (inject_Z 4294967295).

Definition sampleExponential : ExponentialCurveConfig.t :=
  {| ExponentialCurveConfig.c := 1000000000000;
     ExponentialCurveConfig.b := 0;
     ExponentialCurveConfig.pow := ofZ 1;
     ExponentialCurveConfig.frac := ofZ 1 |}.

(** The double nearest to a rational (the rational itself beyond the
    largest double). *)
Definition nearestDouble (q : Qc) : Qc :=
  match round q with
  | Fin r => r
  | _ => q
  end.

(** The number 1.234567890123e-7, that is 0.0000001234567890123. *)
Definition tiny : Qc :=
  nearestDouble (Q2Qc (1234567890123 # 10000000000000000000)).

(** A pricing curve whose first root estimate is that number. *)
Definition tinyCurve : IPricingCurve.t :=
  {| IPricingCurve.buyTargetAmount := fun _ _ _ => ofZ 7;
     IPricingCurve.buyTargetAmountRootEstimates := fun _ _ => [Fin tiny; ofZ 2];
     IPricingCurve.buyWithBaseAmount := fun _ _ _ => ofZ 3;
     IPricingCurve.buyWithBaseRootEstimates := fun _ _ => [Fin tiny; ofZ 4; ofZ 9];
     IPricingCurve.sellTargetAmount := fun _ _ _ => ofZ 2 |}.

(** [u] is what [toU128] makes of the number [e]; for a number that prints in
    plain notation this is the printed value times 10^12, rounded down. *)
Definition encodes (e : number) (u : BN) : Prop :=
  toU128 (Num e) = Ok u /\
  (forall ip fp, ip <> [] -> allDigits ip -> allDigits fp ->
     toString e = ip ++ lit "." ++ fp ->
     u = Qfloor (printedValue ip fp * inject_Z (10 ^ 12))) /\
  (forall ip, ip <> [] -> allDigits ip -> toString e = ip ->
     u = numeral ip * 10 ^ 12).

(** * Properties *)

(** ** Rationals and signs *)

Ltac qc_compute :=
  vm_compute;
  first [ reflexivity
        | apply Qc_is_canon; reflexivity
        | f_equal; apply Qc_is_canon; reflexivity ].

Lemma sgn_Gt (q : Qc) : (Q2Qc 0 < q)%Qc -> sgn q = Gt.
Proof. intro H. unfold sgn. apply Qcgt_alt. exact H. Qed.

Lemma sgn_Eq (q : Qc) : sgn q = Eq -> q = Q2Qc 0.
Proof. intro H. unfold sgn in H. apply Qceq_alt. exact H. Qed.

Lemma Q2Qc_this (q : Q) : (this (Q2Qc q) == q)%Q.
Proof. simpl. apply Qred_correct. Qed.

Lemma sgn_u32Max : sgn u32Max = Gt.
Proof. reflexivity. Qed.

(** ** Rounding to the nearest double *)

Lemma pow2_pos (e : Z) : (0 < pow2 e)%Q.
Proof. apply Qpower_0_lt. reflexivity. Qed.

Lemma pow2_add (a b : Z) : (pow2 (a + b) == pow2 a * pow2 b)%Q.
Proof. apply Qpower_plus. discriminate. Qed.

Lemma pow2_Z (n : Z) : 0 <= n -> (pow2 n == inject_Z (2 ^ n))%Q.
Proof. intro H. unfold pow2. now rewrite Zpower_Qpower. Qed.

Lemma pow2_succ (e : Z) : (pow2 (e + 1) == 2 * pow2 e)%Q.
Proof. rewrite pow2_add. change (pow2 1) with 2%Q. ring. Qed.

Lemma log2_bounds (a : Z) :
  0 < a -> (pow2 (Z.log2 a) <= inject_Z a /\ inject_Z a < pow2 (Z.log2 a + 1))%Q.
Proof.
  intro H. destruct (Z.log2_spec a H) as [Hl Hu].
  assert (H0 := Z.log2_nonneg a).
  rewrite !pow2_Z by lia. rewrite <- Z.add_1_r in Hu.
  split; [rewrite <- Zle_Qle | rewrite <- Zlt_Qlt]; assumption.
Qed.

Lemma binade_spec (a : Z) (b : positive) :
  0 < a -> (pow2 (binade a b) <= a # b /\ a # b < pow2 (binade a b + 1))%Q.
Proof.
  intro Ha. unfold binade.
  destruct (log2_bounds a Ha) as [Al Au].
  destruct (log2_bounds (Zpos b) eq_refl) as [Bl Bu].
  set (la := Z.log2 a) in *. set (lb := Z.log2 (Zpos b)) in *.
  assert (Hq : (a # b == inject_Z a / inject_Z (Zpos b))%Q) by apply Qmake_Qdiv.
  assert (Hb : (0 < inject_Z (Zpos b))%Q) by reflexivity.
  assert (Pa := pow2_pos la). assert (Pb := pow2_pos lb).
  assert (E0 : (pow2 (la - lb) * pow2 lb == pow2 la)%Q).
  { rewrite <- pow2_add. now replace (la - lb + lb) with la by lia. }
  assert (S1 := pow2_succ la). assert (S2 := pow2_succ lb).
  assert (S3 := pow2_succ (la - lb)). assert (S4 := pow2_succ (la - lb - 1)).
  replace (la - lb - 1 + 1) with (la - lb) in S4 by lia.
  assert (P0 := pow2_pos (la - lb)). assert (P1 := pow2_pos (la - lb - 1)).
  set (x := inject_Z a) in *. set (y := inject_Z (Zpos b)) in *.
  assert (Hx : ((a # b) * y == x)%Q) by (rewrite Hq; field; lra).
  set (r := (a # b)%Q) in *. clearbody r x y. clear Hq.
  set (p := pow2 (la - lb)) in *. set (p' := pow2 (la - lb - 1)) in *.
  set (A := pow2 la) in *. set (B := pow2 lb) in *.
  destruct (Qle_bool p r) eqn:T.
  - apply Qle_bool_iff in T. split; [exact T |].
    fold p. rewrite S3. 
    apply Qnot_le_lt. intro C.
    assert ((2 * p) * y <= r * y)%Q by (apply Qmult_le_compat_r; lra).
    assert (p * B <= p * y)%Q by (rewrite !(Qmult_comm p); apply Qmult_le_compat_r; lra).
    lra.
  - assert (T' : (r < p)%Q).
    { apply Qnot_le_lt. intro C. apply Qle_bool_iff in C. congruence. }
    replace (la - lb - 1 + 1) with (la - lb) by lia. fold p. split; [| exact T'].
    fold p'. apply Qnot_lt_le. intro C.
    assert (r * y <= p' * y)%Q by (apply Qmult_le_compat_r; lra).
    assert (Hlt : (p' * y < p' * (pow2 (lb + 1)))%Q).
    { rewrite !(Qmult_comm p'). apply Qmult_lt_compat_r; lra. }
    rewrite S2 in Hlt. 
    assert (p' * (2 * B) == p * B)%Q by (rewrite S4; ring).
    lra.
Qed.

Lemma nearestEven_error (y : Q) :
  (y - (1 # 2) <= inject_Z (nearestEven y) /\ inject_Z (nearestEven y) <= y + (1 # 2))%Q.
Proof.
  unfold nearestEven. assert (Hl := Qfloor_le y). assert (Hu := Qlt_floor y).
  rewrite inject_Z_plus in Hu. change (inject_Z 1) with 1%Q in Hu.
  set (f := Qfloor y) in *.
  destruct (y - inject_Z f ?= 1 # 2)%Q eqn:C.
  - apply Qeq_alt in C. destruct (Z.even f); [| rewrite inject_Z_plus; change (inject_Z 1) with 1%Q]; lra.
  - apply Qlt_alt in C. lra.
  - apply Qgt_alt in C. rewrite inject_Z_plus. change (inject_Z 1) with 1%Q. lra.
Qed.

Lemma nearestEven_above (y : Q) (k : Z) :
  (inject_Z k <= y)%Q -> k <= nearestEven y.
Proof.
  intro H. apply Qfloor_resp_le in H. rewrite Qfloor_Z in H.
  unfold nearestEven. destruct (_ ?= _)%Q; [destruct (Z.even _) |..]; lia.
Qed.

(** Rounding a positive rational of the normal range. *)
Lemma round64_normal (q : Q) :
  (pow2 (-1022) <= q)%Q -> (q < pow2 1023)%Q ->
  exists r, round64 q = Some r /\
    (q * (1 - pow2 (-53)) <= r /\ r <= q * (1 + pow2 (-53)))%Q.
Proof.
  intros Hlo Hhi. assert (P := pow2_pos (-1022)).
  assert (Hq : (0 < q)%Q) by lra.
  destruct q as [a b]. assert (Ha : 0 < a) by (unfold Qlt in Hq; simpl in Hq; lia).
  unfold round64. cbn [Qnum].
  destruct a as [| pa | pa]; try lia.
  assert (Eabs : Qabs (Zpos pa # b) = (Zpos pa # b)) by reflexivity.
  rewrite Eabs. cbn [Qnum Qden].
  destruct (binade_spec (Zpos pa) b Ha) as [Bl Bu].
  set (e := binade (Zpos pa) b) in *. set (q := (Zpos pa # b)%Q) in *.
  assert (He : -1022 <= e).
  { destruct (Z.le_gt_cases (-1022) e) as [|G]; [assumption | exfalso].
    assert (pow2 (e + 1) <= pow2 (-1022))%Q
      by (apply Qpower_le_compat_l; [lia | discriminate]).
    lra. }
  replace (Z.max (e - 52) (-1074)) with (e - 52) by lia.
  set (u := pow2 (e - 52)). assert (Pu : (0 < u)%Q) by apply pow2_pos.
  assert (Eu : (u * pow2 52 == pow2 e)%Q).
  { unfold u. rewrite <- pow2_add. now replace (e - 52 + 52) with e by lia. }
  assert (Eh : (u == pow2 e * pow2 (-52))%Q).
  { unfold u. rewrite <- pow2_add. now replace (e + -52) with (e - 52) by lia. }
  destruct (nearestEven_error (q / u)) as [Nl Nu].
  set (m := inject_Z (nearestEven (q / u))) in *.
  assert (Ey : (q / u * u == q)%Q) by (field; lra).
  assert (Rl : (q - u * (1 # 2) <= m * u)%Q).
  { assert ((q / u - (1 # 2)) * u <= m * u)%Q by (apply Qmult_le_compat_r; lra). lra. }
  assert (Ru : (m * u <= q + u * (1 # 2))%Q).
  { assert (m * u <= (q / u + (1 # 2)) * u)%Q by (apply Qmult_le_compat_r; lra). lra. }
  assert (E53 : (pow2 (-52) * (1 # 2) == pow2 (-53))%Q) by reflexivity.
  assert (Hu : (u * (1 # 2) <= q * pow2 (-53))%Q).
  { assert (pow2 e * pow2 (-53) <= q * pow2 (-53))%Q
      by (apply Qmult_le_compat_r; [lra | apply Qlt_le_weak, pow2_pos]).
    rewrite Eh. rewrite <- E53 in *. lra. }
  assert (Hover : Qle_bool (pow2 1024) (m * u) = false).
  { destruct (Qle_bool (pow2 1024) (m * u)) eqn:T; [| reflexivity].
    apply Qle_bool_iff in T. exfalso.
    assert (S := pow2_succ 1023). change (1023 + 1) with 1024 in S.
    assert (pow2 (-53) <= 1)%Q by discriminate.
    assert (q * pow2 (-53) <= q * 1)%Q
      by (rewrite !(Qmult_comm q); apply Qmult_le_compat_r; lra).
    lra. }
  rewrite Hover. change (Z.pos pa <? 0) with false. cbv iota. eexists. split; [reflexivity |].
  assert (E1 : (q * (1 - pow2 (-53)) == q - q * pow2 (-53))%Q) by ring.
  assert (E2 : (q * (1 + pow2 (-53)) == q + q * pow2 (-53))%Q) by ring.
  rewrite E1, E2. lra.
Qed.

Lemma round_normal (q : Qc) :
  (pow2 (-1022) <= q)%Q -> (q < pow2 1023)%Q ->
  exists r : Qc, round q = Fin r /\
    (q * (1 - pow2 (-53)) <= r /\ r <= q * (1 + pow2 (-53)))%Q.
Proof.
  intros Hlo Hhi. destruct (round64_normal q Hlo Hhi) as (r & Hr & Hb).
  exists (Q2Qc r). unfold round. rewrite Hr. split; [reflexivity |].
  now rewrite Q2Qc_this.
Qed.

(** Rounding keeps a number of at least 2^-1022 positive. *)
Lemma round_positive (q : Qc) :
  (pow2 (-1022) <= q)%Q ->
  round q = Infinity false \/ exists r, round q = Fin r /\ sgn r = Gt.
Proof.
  intro Hlo. assert (P := pow2_pos (-1022)).
  assert (Hq : (0 < q)%Q) by lra.
  unfold round, round64. destruct q as [[a b] Hc]. cbn [this] in *.
  assert (Ha : 0 < a) by (unfold Qlt in Hq; simpl in Hq; lia).
  cbn [Qnum]. destruct a as [| pa | pa]; try lia.
  change (Qabs (Zpos pa # b)) with (Zpos pa # b). cbn [Qnum Qden].
  destruct (binade_spec (Zpos pa) b Ha) as [Bl Bu].
  set (e := binade (Zpos pa) b) in *. set (q := (Zpos pa # b)%Q) in *.
  assert (He : -1022 <= e).
  { destruct (Z.le_gt_cases (-1022) e) as [|G]; [assumption | exfalso].
    assert (pow2 (e + 1) <= pow2 (-1022))%Q
      by (apply Qpower_le_compat_l; [lia | discriminate]).
    lra. }
  replace (Z.max (e - 52) (-1074)) with (e - 52) by lia.
  set (u := pow2 (e - 52)). assert (Pu : (0 < u)%Q) by apply pow2_pos.
  destruct (Qle_bool (pow2 1024) _); [now left | right].
  change (Z.pos pa <? 0) with false. cbv iota.
  eexists. split; [reflexivity |].
  apply sgn_Gt. unfold Qclt. rewrite !Q2Qc_this.
  assert (Hm : 1 <= nearestEven (q / u)).
  { apply nearestEven_above. change (inject_Z 1) with 1%Q.
    assert (Eu : (u * pow2 52 == pow2 e)%Q).
    { unfold u. rewrite <- pow2_add. now replace (e - 52 + 52) with e by lia. }
    assert (1 <= pow2 52)%Q by discriminate.
    assert (u * 1 <= u * pow2 52)%Q
      by (rewrite !(Qmult_comm u); apply Qmult_le_compat_r; lra).
    apply Qle_shift_div_l; lra. }
  apply Qmult_lt_0_compat; [| exact Pu].
  change 0%Q with (inject_Z 0). rewrite <- Zlt_Qlt. lia.
Qed.


Lemma one_isDouble : isDouble (ofZ 1).
Proof. unfold isDouble, ofZ. qc_compute. Qed.


Lemma reciprocal_at_full :
  (ofZ 1 / (ofZ 1 - asDecimal (ofZ 4294967295)))%js = Infinity false.
Proof. vm_compute. reflexivity. Qed.

(** ** Fallible results *)

Lemma bind_Ok {A B : Type} (r : result A) (k : A -> result B) (b : B) :
  bind r k = Ok b -> exists a, r = Ok a /\ k a = Ok b.
Proof. destruct r as [a | e]; simpl; intro H; [eauto | discriminate]. Qed.

Ltac bind_inv H :=
  let a := fresh "a" in
  let Ha := fresh "Ha" in
  apply bind_Ok in H; destruct H as (a & Ha & H).

Lemma mapM_Forall2 {A B : Type} (f : A -> result B) (l : list A) (l' : list B) :
  mapM f l = Ok l' -> Forall2 (fun a b => f a = Ok b) l l'.
Proof.
  revert l'. induction l as [| a l IH]; simpl; intros l' H.
  - injection H as <-. constructor.
  - bind_inv H. bind_inv H. injection H as <-.
    constructor; [assumption | now apply IH].
Qed.

Lemma Forall2_map_l {A B C : Type} (g : A -> B) (R : B -> C -> Prop)
    (l : list A) (l' : list C) :
  Forall2 R (map g l) l' -> Forall2 (fun a c => R (g a) c) l l'.
Proof.
  revert l'. induction l as [| a l IH]; simpl; intros l' H; inversion H; subst.
  - constructor.
  - constructor; [assumption | now apply IH].
Qed.

(** ** The buy builder *)

Section BuyFacts.

Variable amountAsNum : BN -> MintInfo -> number.
Variable curve : IPricingCurve.t.
Variables (acct : TokenBondingV0) (targetMint baseMint : MintInfo).
Variable slippage : number.

Let byTarget := buyByTarget amountAsNum curve acct targetMint baseMint.
Let byBase := buyByBase amountAsNum curve acct targetMint baseMint.

Lemma buyByTarget_absent desired l :
  given desired = None -> byTarget desired slippage l = Ok l.
Proof. unfold byTarget, buyByTarget. now intros ->. Qed.

Lemma buyByTarget_given desired d l l1 :
  given desired = Some d ->
  byTarget desired slippage l = Ok l1 ->
  exists bt,
    l_buyTargetAmount l1 = Some bt /\
    BN_ofNumber
      (JS.floor (neededAmount (toNumber amountAsNum d targetMint)
                   (buyTargetRoyaltyPercentage acct)
                 * pow10 (decimals targetMint))%js)
    = Ok (BuyV0Args.targetAmount bt) /\
    l_rootEstimates l1 =
      Some (IPricingCurve.buyTargetAmountRootEstimates curve
              (toNumber amountAsNum d targetMint)
              (buyTargetRoyaltyPercentage acct)).
Proof.
  unfold byTarget, buyByTarget. intros -> H.
  bind_inv H. bind_inv H. injection H as <-. simpl.
  eexists. split; [reflexivity |]. simpl. split; [assumption | reflexivity].
Qed.

Lemma buyByBase_absent base l :
  given base = None -> byBase base slippage l = Ok l.
Proof. unfold byBase, buyByBase. now intros ->. Qed.

Lemma buyByBase_keeps_target base l l2 :
  byBase base slippage l = Ok l2 ->
  l_buyTargetAmount l2 = l_buyTargetAmount l.
Proof.
  unfold byBase, buyByBase. destruct (given base) as [bs |]; intro H.
  - bind_inv H. bind_inv H. injection H as <-. reflexivity.
  - now injection H as <-.
Qed.

Lemma buyByBase_given base bs l l2 :
  given base = Some bs ->
  byBase base slippage l = Ok l2 ->
  l_rootEstimates l2 =
    Some (IPricingCurve.buyWithBaseRootEstimates curve
            (toNumber amountAsNum bs baseMint)
            (buyBaseRoyaltyPercentage acct)).
Proof.
  unfold byBase, buyByBase. intros -> H.
  bind_inv H. bind_inv H. injection H as <-. reflexivity.
Qed.

Lemma buyInstructions_Ok desired base args :
  buyInstructions amountAsNum curve acct targetMint baseMint desired base slippage
  = Ok args ->
  exists l1 l2,
    byTarget desired slippage initialLocals = Ok l1 /\
    byBase base slippage l1 = Ok l2 /\
    BuyV0Args.buyTargetAmount args = l_buyTargetAmount l2 /\
    mapEstimates (l_rootEstimates l2) = Ok (BuyV0Args.rootEstimates args).
Proof.
  unfold buyInstructions. intro H.
  bind_inv H. bind_inv H. bind_inv H. injection H as <-. simpl.
  eauto 6.
Qed.

(** What a buy by desired target amount puts in the instruction. *)
Lemma buyInstructions_targetAmount desired d base args :
  given desired = Some d ->
  buyInstructions amountAsNum curve acct targetMint baseMint desired base slippage
  = Ok args ->
  exists bt,
    BuyV0Args.buyTargetAmount args = Some bt /\
    BN_ofNumber
      (JS.floor (neededAmount (toNumber amountAsNum d targetMint)
                   (buyTargetRoyaltyPercentage acct)
                 * pow10 (decimals targetMint))%js)
    = Ok (BuyV0Args.targetAmount bt).
Proof.
  intros Hd H. apply buyInstructions_Ok in H.
  destruct H as (l1 & l2 & H1 & H2 & Ht & _).
  destruct (buyByTarget_given _ _ _ _ Hd H1) as (bt & Hbt & Hta & _).
  exists bt. split; [| exact Hta].
  rewrite Ht, (buyByBase_keeps_target _ _ _ H2). exact Hbt.
Qed.

End BuyFacts.

(** C1, as the code has it.  In a buy by desired target amount the needed
    amount is the desired amount multiplied by the reciprocal
    [1 / (1 - royalty / 4294967295)], every operation rounded to a double;
    the instruction carries the floor of that product scaled by ten to the
    target mint's decimals.  A number is taken as it is, a [BN] through
    [amountAsNum]. *)
Theorem buy_needed_amount_as_computed
    (amountAsNum : BN -> MintInfo -> number) (curve : IPricingCurve.t)
    (acct : TokenBondingV0) (targetMint baseMint : MintInfo)
    (desired base : option NumOrBN) (slippage : number)
    (d : NumOrBN) (args : BuyV0Args.t) :
  given desired = Some d ->
  buyInstructions amountAsNum curve acct targetMint baseMint desired base slippage
  = Ok args ->
  let desiredNum :=
    match d with
    | Num x => x
    | Big b => amountAsNum b targetMint
    end in
  let needed :=
    (desiredNum
     * (ofZ 1 / (ofZ 1 - buyTargetRoyaltyPercentage acct / ofZ 4294967295)))%js in
  exists bt,
    BuyV0Args.buyTargetAmount args = Some bt /\
    BN_ofNumber (JS.floor (needed * pow10 (decimals targetMint))%js)
    = Ok (BuyV0Args.targetAmount bt).
Proof.
  intros Hd H desiredNum needed.
  destruct (buyInstructions_targetAmount _ _ _ _ _ _ _ _ _ _ Hd H)
    as (bt & Hbt & Hta).
  exists bt. split; [exact Hbt |].
  destruct d as [x | b]; exact Hta.
Qed.

Lemma buy_needed_amount_as_computed_witness :
  let args :=
    {| BuyV0Args.buyTargetAmount :=
         Some {| BuyV0Args.targetAmount := 1666666666;
                 BuyV0Args.maximumPrice := 7350001 |};
       BuyV0Args.buyWithBase := None;
       BuyV0Args.rootEstimates := Some [1500000000000; 2000000000000] |} in
  buyInstructions sampleAmountAsNum sampleCurve (sampleBonding (ofZ 429496729))
    (sampleMint 9) (sampleMint 6) (Some (Num (dec "1.5"))) None (dec "0.05")
  = Ok args /\
  exists bt,
    BuyV0Args.buyTargetAmount args = Some bt /\
    BN_ofNumber
      (JS.floor (dec "1.5"
                 * (ofZ 1 / (ofZ 1 - ofZ 429496729 / ofZ 4294967295))
                 * pow10 9)%js)
    = Ok (BuyV0Args.targetAmount bt).
Proof.
  intro args.
  assert (Hrun : buyInstructions sampleAmountAsNum sampleCurve
                   (sampleBonding (ofZ 429496729)) (sampleMint 9) (sampleMint 6)
                   (Some (Num (dec "1.5"))) None (dec "0.05") = Ok args)
    by (vm_compute; reflexivity).
  assert (Hd : given (Some (Num (dec "1.5"))) = Some (Num (dec "1.5")))
    by (vm_compute; reflexivity).
  split; [exact Hrun |].
  exact (buy_needed_amount_as_computed sampleAmountAsNum sampleCurve
           (sampleBonding (ofZ 429496729)) (sampleMint 9) (sampleMint 6)
           (Some (Num (dec "1.5"))) None (dec "0.05") (Num (dec "1.5")) args
           Hd Hrun).
Defined.

(** C1, as the claim has it, fails.  At a desired amount of 2 and a royalty
    of 1431655765 / 4294967295 = 1/3 the quotient is 3 and its raw amount at
    9 decimals 3000000000, but the code's needed amount is the double
    2.9999999999999996 and the instruction carries 2999999999.  Nor is the
    needed amount always the quotient as doubles divide: at a desired amount
    of 1.5 and a royalty of 429496729 the two differ in the last place. *)
Lemma buy_needed_amount_counterexample :
  (Q2Qc (inject_Z 2) / (Q2Qc 1 - Q2Qc (1431655765 # 4294967295)) = Q2Qc (inject_Z 3))%Qc /\
  neededAmount (ofZ 2) (ofZ 1431655765) = dec "2.9999999999999996" /\
  neededAmount (ofZ 2) (ofZ 1431655765) <> ofZ 3 /\
  (exists args bt,
     buyInstructions sampleAmountAsNum sampleCurve (sampleBonding (ofZ 1431655765))
       (sampleMint 9) (sampleMint 6) (Some (Num (ofZ 2))) None (dec "0.05")
     = Ok args /\
     BuyV0Args.buyTargetAmount args = Some bt /\
     BuyV0Args.targetAmount bt = 2999999999) /\
  neededAmount (dec "1.5") (ofZ 429496729)
  <> (dec "1.5" / (ofZ 1 - asDecimal (ofZ 429496729)))%js.
Proof.
  split; [qc_compute |]. split; [qc_compute |]. split; [| split].
  - vm_compute. intro H. discriminate H.
  - eexists. eexists. split; [vm_compute; reflexivity |].
    split; reflexivity.
  - vm_compute. intro H. discriminate H.
Qed.



(** ** A royalty of exactly 100% *)

Lemma sgn_ofZ_pos (z : Z) : 0 < z -> sgn (Q2Qc (inject_Z z)) = Gt.
Proof.
  intro Hz. apply sgn_Gt. unfold Qclt. rewrite !Q2Qc_this.
  unfold Qlt. simpl. lia.
Qed.

(** [Math.pow(10, d)] is positive, or +Infinity from 10^309 on. *)
Lemma pow10_positive (d : N) :
  pow10 d = Infinity false \/ exists r, pow10 d = Fin r /\ sgn r = Gt.
Proof.
  unfold pow10. apply round_positive. rewrite Q2Qc_this.
  assert (H1 : (pow2 (-1022) <= 1)%Q) by (vm_compute; discriminate).
  assert (H2 : 1 <= 10 ^ Z.of_N d) by (apply Z.lt_pred_le, Z.pow_pos_nonneg; lia).
  apply Qle_trans with 1%Q; [exact H1 |].
  change 1%Q with (inject_Z 1). now rewrite <- Zle_Qle.
Qed.

Lemma mul_infinity_truthy (x : number) :
  JS.truthy x = true -> exists s, (x * Infinity false)%js = Infinity s.
Proof.
  destruct x as [| s | q]; simpl; intro H; try discriminate; eauto.
  destruct (sgn q); try discriminate; eauto.
Qed.

Lemma mul_infinity_falsy (x : number) :
  JS.truthy x = false -> (x * Infinity false)%js = NaN.
Proof.
  destruct x as [| s | q]; simpl; intro H; try discriminate; try reflexivity.
  destruct (sgn q); try discriminate; reflexivity.
Qed.

Lemma infinity_mul_pow10 (s : bool) (d : N) :
  (Infinity s * pow10 d)%js = Infinity s.
Proof.
  destruct (pow10_positive d) as [-> | (r & -> & Hr)]; simpl.
  - now destruct s.
  - now rewrite Hr.
Qed.

Lemma NaN_mul (y : number) : (NaN * y)%js = NaN.
Proof. reflexivity. Qed.

Lemma BN_ofNumber_errors (x : number) (e : error) :
  BN_ofNumber x = Err e -> e = assertionFailed.
Proof.
  destruct x as [| s | q]; simpl; try (intro H; now injection H as <-).
  - discriminate.
  - destruct (_ <? _); [discriminate | intro H; now injection H as <-].
Qed.

Lemma toU128_errors (x : NumOrBN) (e : error) :
  toU128 x = Err e -> e = assertionFailed \/ e = JsError "Invalid character".
Proof.
  destruct x as [x | b]; [| discriminate]. unfold toU128.
  destruct (JS.isNaN _ || negb (JS.isFinite _)).
  - intro H. left. now apply BN_ofNumber_errors in H.
  - unfold BN_ofString.
    destruct (match _ ++ _ with [] => _ | _ => _ end) as [negative body].
    destruct (forallb isDigit body); [discriminate |].
    intro H. injection H as <-. now right.
Qed.

Lemma mapM_toU128_errors (l : list NumOrBN) (e : error) :
  mapM toU128 l = Err e -> e = assertionFailed \/ e = JsError "Invalid character".
Proof.
  induction l as [| x l IH]; simpl; [discriminate |].
  destruct (toU128 x) eqn:E; simpl.
  - destruct (mapM toU128 l); simpl; [discriminate |].
    intro H. injection H as <-. now apply IH.
  - intro H. injection H as <-. now apply (toU128_errors x).
Qed.

(** The errors of the buy builder are those of bn.js. *)
Lemma buyInstructions_errors
    (amountAsNum : BN -> MintInfo -> number) (curve : IPricingCurve.t)
    (acct : TokenBondingV0) (targetMint baseMint : MintInfo)
    (desired base : option NumOrBN) (slippage : number) (e : error) :
  buyInstructions amountAsNum curve acct targetMint baseMint desired base slippage
  = Err e ->
  e = assertionFailed \/ e = JsError "Invalid character".
Proof.
  unfold buyInstructions.
  assert (HBN : forall x e', BN_ofNumber x = Err e' -> e' = assertionFailed)
    by apply BN_ofNumber_errors.
  assert (HtoBN : forall a m e', toBN a m = Err e' -> e' = assertionFailed).
  { intros [x | b] m e'; simpl; [apply HBN | discriminate]. }
  destruct (buyByTarget _ _ _ _ _ _ _ _) as [l1 | e1] eqn:E1; simpl.
  - destruct (buyByBase _ _ _ _ _ _ _ _) as [l2 | e2] eqn:E2; simpl.
    + destruct (mapEstimates _) as [es | e3] eqn:E3; simpl; [discriminate |].
      intro H. injection H as <-. unfold mapEstimates in E3.
      destruct (l_rootEstimates l2) as [rs |]; [| discriminate].
      destruct (mapM toU128 _) eqn:Em; simpl in E3; [discriminate |].
      injection E3 as <-. now apply mapM_toU128_errors in Em.
    + intro H. injection H as <-. left. unfold buyByBase in E2.
      destruct (given base) as [bs |]; [| discriminate].
      cbv zeta in E2.
      destruct (toBN bs baseMint) eqn:Eb; cbn [bind] in E2.
      * destruct (BN_ofNumber _) eqn:Em; cbn [bind] in E2; [discriminate |].
        injection E2 as <-. now apply HBN in Em.
      * injection E2 as <-. now apply HtoBN in Eb.
  - intro H. injection H as <-. left. unfold buyByTarget in E1.
    destruct (given desired) as [ds |]; [| discriminate].
    cbv zeta in E1.
    destruct (BN_ofNumber _) eqn:Et; cbn [bind] in E1.
    + match type of E1 with
      | context [toBN ?a ?m] => destruct (toBN a m) eqn:Em
      end; cbn [bind] in E1; [discriminate |].
      injection E1 as <-. now apply HtoBN in Em.
    + injection E1 as <-. now apply HBN in Et.
Qed.

(** C4, as the code has it.  No royalty guard exists: at a buy-target royalty
    of exactly 100% the divisor [1 - pct] is 0 and the division is performed,
    giving +Infinity.  For a desired amount that is not zero the needed amount
    is infinite and the buy fails with the generic assertion error of the
    big-number constructor; for a [BN] that reads as 0 (or NaN) the needed
    amount is NaN, which the constructor takes for 0, so a buy that is built
    carries the target amount 0.  The error is never [InvalidRoyalty]. *)
Theorem buy_full_royalty_not_guarded
    (amountAsNum : BN -> MintInfo -> number) (curve : IPricingCurve.t)
    (acct : TokenBondingV0) (targetMint baseMint : MintInfo)
    (desired base : option NumOrBN) (slippage : number) (d : NumOrBN) :
  let desiredNum :=
    match d with
    | Num x => x
    | Big b => amountAsNum b targetMint
    end in
  let run :=
    buyInstructions amountAsNum curve acct targetMint baseMint desired base
      slippage in
  given desired = Some d ->
  buyTargetRoyaltyPercentage acct = ofZ 4294967295 ->
  (ofZ 1 - ofZ 4294967295 / ofZ 4294967295)%js = ofZ 0 /\
  (ofZ 1 / ofZ 0)%js = Infinity false /\
  (JS.truthy desiredNum = true -> run = Err assertionFailed) /\
  (JS.truthy desiredNum = false ->
   forall args, run = Ok args ->
   exists bt, BuyV0Args.buyTargetAmount args = Some bt /\
              BuyV0Args.targetAmount bt = 0) /\
  run <> Err InvalidRoyalty.
Proof.
  intros desiredNum run Hd Hp.
  assert (Hnum : toNumber amountAsNum d targetMint = desiredNum)
    by (destruct d; reflexivity).
  split; [qc_compute |]. split; [vm_compute; reflexivity |]. split; [| split].
  - intro Ht. unfold run, buyInstructions, buyByTarget. rewrite Hd, Hp, Hnum.
    unfold neededAmount. rewrite reciprocal_at_full.
    destruct (mul_infinity_truthy _ Ht) as (s & ->).
    rewrite infinity_mul_pow10. reflexivity.
  - intros Hf args H.
    destruct (buyInstructions_targetAmount _ _ _ _ _ _ _ _ _ _ Hd H)
      as (bt & Hbt & Hta).
    exists bt. split; [exact Hbt |].
    rewrite Hp, Hnum in Hta. unfold neededAmount in Hta.
    rewrite reciprocal_at_full, (mul_infinity_falsy _ Hf), NaN_mul in Hta.
    cbn in Hta. now injection Hta as <-.
  - intro H. apply buyInstructions_errors in H. destruct H; discriminate.
Qed.

Lemma buy_full_royalty_not_guarded_witness :
  let args :=
    {| BuyV0Args.buyTargetAmount :=
         Some {| BuyV0Args.targetAmount := 0;
                 BuyV0Args.maximumPrice := 7350001 |};
       BuyV0Args.buyWithBase := None;
       BuyV0Args.rootEstimates := Some [1500000000000; 2000000000000] |} in
  buyInstructions sampleAmountAsNum sampleCurve (sampleBonding (ofZ 4294967295))
    (sampleMint 9) (sampleMint 6) (Some (Num (ofZ 5))) None (dec "0.05")
  = Err assertionFailed /\
  buyInstructions sampleAmountAsNum sampleCurve (sampleBonding (ofZ 4294967295))
    (sampleMint 9) (sampleMint 6) (Some (Big 0)) None (dec "0.05")
  = Ok args /\
  exists bt, BuyV0Args.buyTargetAmount args = Some bt /\
             BuyV0Args.targetAmount bt = 0.
Proof.
  intro args.
  assert (Hrun : buyInstructions sampleAmountAsNum sampleCurve
                   (sampleBonding (ofZ 4294967295)) (sampleMint 9) (sampleMint 6)
                   (Some (Big 0)) None (dec "0.05") = Ok args)
    by (vm_compute; reflexivity).
  split; [| split; [exact Hrun |]].
  - refine (proj1 (proj2 (proj2
              (buy_full_royalty_not_guarded sampleAmountAsNum sampleCurve
                 (sampleBonding (ofZ 4294967295)) (sampleMint 9) (sampleMint 6)
                 (Some (Num (ofZ 5))) None (dec "0.05") (Num (ofZ 5)) _ _))) _);
      reflexivity.
  - refine (proj1 (proj2 (proj2 (proj2
              (buy_full_royalty_not_guarded sampleAmountAsNum sampleCurve
                 (sampleBonding (ofZ 4294967295)) (sampleMint 9) (sampleMint 6)
                 (Some (Big 0)) None (dec "0.05") (Big 0) _ _)))) _ args Hrun);
      reflexivity.
Defined.

(** C4, as the claim has it, fails: with a royalty of 100% the result is not
    [InvalidRoyalty]; the needed amount has been computed as +Infinity, and
    for a desired amount of [BN] 0 the buy is even built. *)
Lemma buy_full_royalty_counterexample :
  neededAmount (ofZ 5) (ofZ 4294967295) = Infinity false /\
  buyInstructions sampleAmountAsNum sampleCurve (sampleBonding (ofZ 4294967295))
    (sampleMint 9) (sampleMint 6) (Some (Num (ofZ 5))) None (dec "0.05")
  <> Err InvalidRoyalty /\
  buyInstructions sampleAmountAsNum sampleCurve (sampleBonding (ofZ 4294967295))
    (sampleMint 9) (sampleMint 6) (Some (Big 0)) None (dec "0.05")
  <> Err InvalidRoyalty.
Proof.
  split; [vm_compute; reflexivity |].
  split; vm_compute; discriminate.
Qed.

(** ** Root estimates *)

(** C5, at a failing input.  A pricing curve gives 1.234567890123e-7 as its
    first root estimate.  The whole sequence is carried, in order and through
    [toU128], but [toU128] reads the exponent notation of that number wrongly:
    the instruction carries 1234567890123 where the 12-decimal encoding of the
    estimate is 123456.  This is the defect of [toU128] itself. *)
Theorem buy_root_estimate_exponent_notation :
  IPricingCurve.buyTargetAmountRootEstimates tinyCurve (dec "1.5") (ofZ 0)
  = [dec "1.234567890123e-7"; ofZ 2] /\
  buyInstructions sampleAmountAsNum tinyCurve (sampleBonding (ofZ 0))
    (sampleMint 9) (sampleMint 6) (Some (Num (dec "1.5"))) None (dec "0.05")
  = Ok {| BuyV0Args.buyTargetAmount :=
            Some {| BuyV0Args.targetAmount := 1500000000;
                    BuyV0Args.maximumPrice := 7350001 |};
          BuyV0Args.buyWithBase := None;
          BuyV0Args.rootEstimates := Some [1234567890123; 2000000000000] |} /\
  buyInstructions sampleAmountAsNum tinyCurve (sampleBonding (ofZ 0))
    (sampleMint 9) (sampleMint 6) None (Some (Num (ofZ 2))) (dec "0.05")
  = Ok {| BuyV0Args.buyTargetAmount := None;
          BuyV0Args.buyWithBase :=
            Some {| BuyV0Args.baseAmount := 2000000;
                    BuyV0Args.minimumTargetAmount := 2850000000 |};
          BuyV0Args.rootEstimates :=
            Some [1234567890123; 4000000000000; 9000000000000] |} /\
  Qfloor (tiny * inject_Z (10 ^ 12)) = 123456.
Proof.
  split; [qc_compute |].
  repeat (split; [vm_compute; reflexivity |]).
  vm_compute. reflexivity.
Qed.

Lemma BN_ofNumber_ofZ (z : Z) : Z.abs z < 2 ^ 53 -> BN_ofNumber (ofZ z) = Ok z.
Proof.
  intro Hz. unfold BN_ofNumber, ofZ, Q2Qc. cbn [this].
  rewrite Qred_identity by (simpl; apply Z.gcd_1_r).
  cbn [Qnum Qden inject_Z]. rewrite Z.quot_1_r.
  destruct (Z.abs z <? 2 ^ 53) eqn:E; [reflexivity | lia].
Qed.

Lemma nonZero_false (x : number) : JS.nonZero x = false -> x = ofZ 0.
Proof.
  destruct x as [| s | q]; simpl; try discriminate.
  destruct (sgn q) eqn:E; try discriminate.
  intros _. unfold ofZ. f_equal. now apply sgn_Eq.
Qed.

Section TimeCurveFacts.

Context {P : Type}.

(** The entries made of curves and offsets. *)
Let entries (cs : list P) (offsets : list BN) : list (TimeCurveConfig.entry P) :=
  map (fun co => {| TimeCurveConfig.curve := fst co;
                    TimeCurveConfig.offset := snd co |})
    (combine cs offsets).

(** Once a first curve is there, an offset is only handed to [new BN]. *)
Lemma addCurves_after_first (this : TimeCurveConfig.t P) (rest : list (number * P)) :
  TimeCurveConfig.curves this <> [] ->
  TimeCurveConfig.addCurves this rest
  = do offsets <- mapM BN_ofNumber (map fst rest);
    Ok {| TimeCurveConfig.curves :=
            TimeCurveConfig.curves this ++ entries (map snd rest) offsets |}.
Proof.
  revert this. induction rest as [| [t c] rest IH]; intros this Hne.
  - simpl. unfold entries. simpl. rewrite app_nil_r. now destruct this.
  - cbn [map TimeCurveConfig.addCurves fst snd mapM].
    unfold TimeCurveConfig.addCurve.
    destruct (TimeCurveConfig.curves this) as [| e es] eqn:E; [congruence |].
    cbn [List.length Nat.eqb andb].
    destruct (BN_ofNumber t) as [o | err]; cbn [bind]; [| reflexivity].
    rewrite IH by (simpl; destruct es; discriminate).
    cbn [TimeCurveConfig.curves].
    destruct (mapM BN_ofNumber (map fst rest)) as [os | err]; cbn [bind];
      [| reflexivity].
    unfold entries. cbn [combine map fst snd]. now rewrite <- app_assoc.
Qed.

End TimeCurveFacts.

(** C3, as the code has it.  Building a time-composite curve fails with the
    generic error "First time offset must be 0" exactly when the first offset
    is not zero (NaN is not zero).  Otherwise every later offset is handed to
    the big-number constructor and to nothing else: the chain fails with that
    constructor's error at the first offset it refuses (an infinite one, or
    one of magnitude 2^53 or more), and is accepted with the offsets the
    constructor makes (0 for NaN, the integer part otherwise), whatever their
    order. *)
Theorem addCurves_checks_first_offset_only
    (P : Type) (t0 : number) (c0 : P) (rest : list (number * P)) :
  TimeCurveConfig.addCurves TimeCurveConfig.empty ((t0, c0) :: rest)
  = if JS.nonZero t0
    then Err (JsError "First time offset must be 0")
    else
      do offsets <- mapM BN_ofNumber (map fst rest);
      Ok {| TimeCurveConfig.curves :=
              {| TimeCurveConfig.curve := c0; TimeCurveConfig.offset := 0 |}
              :: map (fun co => {| TimeCurveConfig.curve := fst co;
                                   TimeCurveConfig.offset := snd co |})
                   (combine (map snd rest) offsets) |}.
Proof.
  cbn [TimeCurveConfig.addCurves]. unfold TimeCurveConfig.addCurve at 1.
  cbn [TimeCurveConfig.empty TimeCurveConfig.curves List.length Nat.eqb andb].
  destruct (JS.nonZero t0) eqn:E; [reflexivity |].
  apply nonZero_false in E. subst t0.
  rewrite BN_ofNumber_ofZ by (simpl; lia). cbn [bind app].
  rewrite addCurves_after_first by discriminate. reflexivity.
Qed.

(** C3, as the claim has it, fails: offsets 0, 5, 5 and 0, 5, 3 are accepted,
    and a first offset of 7 is refused with a generic error, which is not
    [InvalidCurveDefinition]. *)
Lemma addCurves_counterexample :
  (exists cfg,
     TimeCurveConfig.addCurves TimeCurveConfig.empty
       [(ofZ 0, sampleExponential); (ofZ 5, sampleExponential);
        (ofZ 5, sampleExponential)] = Ok cfg /\
     map TimeCurveConfig.offset (TimeCurveConfig.curves cfg) = [0; 5; 5]) /\
  (exists cfg,
     TimeCurveConfig.addCurves TimeCurveConfig.empty
       [(ofZ 0, sampleExponential); (ofZ 5, sampleExponential);
        (ofZ 3, sampleExponential)] = Ok cfg /\
     map TimeCurveConfig.offset (TimeCurveConfig.curves cfg) = [0; 5; 3]) /\
  TimeCurveConfig.addCurves TimeCurveConfig.empty [(ofZ 7, sampleExponential)]
  <> Err InvalidCurveDefinition.
Proof.
  split; [| split].
  - eexists. split; vm_compute; reflexivity.
  - eexists. split; vm_compute; reflexivity.
  - vm_compute. discriminate.
Qed.

(** C9, at a failing input.  An exponential curve is configured with
    [c] = 1.234567890123e-7.  Its raw configuration is a time-composite
    definition with one entry at offset 0 holding the exponential primitive
    with fields [c], [b], [pow], [frac], but [c] is 1234567890123 where the
    12-decimal encoding of the argument is 123456: [toU128] reads the
    exponent notation of the number wrongly. *)
Theorem exponential_config_exponent_notation :
  exists cfg,
    ExponentialCurveConfig.new (Some (Num (dec "1.234567890123e-7")))
      (Some (Num (dec "0.5"))) (Some (ofZ 3)) (Some (ofZ 2)) = Ok cfg /\
    toRawConfig cfg
    = {| Raw.definition :=
           Raw.timeV0
             {| Raw.curves :=
                  [ {| Raw.offset := 0;
                       Raw.curve :=
                         Raw.exponentialCurveV0
                           {| Raw.c := 1234567890123;
                              Raw.b := 500000000000;
                              Raw.pow := ofZ 3;
                              Raw.frac := ofZ 2 |} |} ] |} |} /\
    dec "1.234567890123e-7" = Fin tiny /\
    Qfloor (tiny * inject_Z (10 ^ 12)) = 123456.
Proof.
  eexists. split; [vm_compute; reflexivity |].
  split; [reflexivity |]. split; [qc_compute | vm_compute; reflexivity].
Qed.

(** ** The sell builders *)

(** [sellInstructions] scales the proceeds, which are in base units, by the
    base mint's decimals. *)
Lemma sellInstructions_minimumPrice
    (amountAsNum : BN -> MintInfo -> number) (curve : IPricingCurve.t)
    (acct : TokenBondingV0) (targetMint baseMint : MintInfo)
    (targetAmount : NumOrBN) (slippage : number) (args : SellV0Args.t) :
  sellInstructions amountAsNum curve acct targetMint baseMint targetAmount slippage
  = Ok args ->
  BN_ofNumber
    (JS.ceil
       (IPricingCurve.sellTargetAmount curve
          (toNumber amountAsNum targetAmount targetMint)
          (sellBaseRoyaltyPercentage acct) (sellTargetRoyaltyPercentage acct)
        * (ofZ 1 - slippage) * pow10 (decimals baseMint))%js)
  = Ok (SellV0Args.minimumPrice args).
Proof.
  unfold sellInstructions. destruct (sellFrozen acct); [discriminate |].
  intro H. apply bind_Ok in H. destruct H as (ta & _ & H).
  apply bind_Ok in H. destruct H as (mp & Hmp & H).
  apply bind_Ok in H. destruct H as (es & _ & H).
  injection H as <-. exact Hmp.
Qed.

(** The older [sellV0Instructions] scales them by the target mint's. *)
Lemma sellV0Instructions_minimumPrice
    (LogCurveV0 : Type) (amountAsNum : BN -> MintInfo -> number)
    (supplyAsNum : MintInfo -> number)
    (startFinishLogCurve : LogCurveV0 -> number -> number -> number)
    (curve : LogCurveV0) (targetMint baseMint : MintInfo)
    (targetAmount : BN) (slippage : number) (args : Legacy.SellV0Args) :
  Legacy.sellV0Instructions LogCurveV0 amountAsNum supplyAsNum startFinishLogCurve
    curve targetMint baseMint targetAmount slippage = Ok args ->
  BN_ofNumber
    (JS.ceil
       (startFinishLogCurve curve
          (supplyAsNum targetMint - amountAsNum targetAmount targetMint)%js
          (amountAsNum targetAmount targetMint)
        * (ofZ 1 - slippage) * pow10 (decimals targetMint))%js)
  = Ok (Legacy.minimumPrice args).
Proof.
  unfold Legacy.sellV0Instructions. intro H.
  apply bind_Ok in H. destruct H as (mp & Hmp & H).
  injection H as <-. exact Hmp.
Qed.

(** C6, at a failing input.  Proceeds of 2 base tokens, a slippage of 5%, a
    base mint of 9 decimals and a target mint of 6: [sellInstructions] asks
    for at least 1.9 base tokens in raw base units (1900000000), whereas
    [sellV0Instructions] multiplies the same proceeds by ten to the target
    mint's decimals and asks for 1900000 raw units only. *)
Theorem sellV0_scales_by_target_decimals :
  let targetMint := sampleMint 6 in
  let baseMint := sampleMint 9 in
  sellInstructions sampleAmountAsNum sampleCurve (sampleBonding (ofZ 0))
    targetMint baseMint (Big 1000000) (dec "0.05")
  = Ok {| SellV0Args.targetAmount := 1000000;
          SellV0Args.minimumPrice := 1900000000;
          SellV0Args.rootEstimates := [1500000000000; 2000000000000] |} /\
  Legacy.sellV0Instructions unit sampleAmountAsNum (fun _ => ofZ 100)
    (fun _ _ _ => ofZ 2) tt targetMint baseMint 1000000 (dec "0.05")
  = Ok {| Legacy.targetAmount := 1000000; Legacy.minimumPrice := 1900000 |}.
Proof. split; vm_compute; reflexivity. Qed.

(** ** The royalty percentage shown by the swap form *)

Lemma fixed2_hundredths (k : Z) : 0 <= k <= 10000 -> fixed2 k = hundredths k.
Proof.
  intro Hk.
  assert (Hall : forallb (fun i => str_eqb (fixed2 (Z.of_nat i)) (hundredths (Z.of_nat i)))
                   (seq 0 (Z.to_nat 10001)) = true) by (vm_compute; reflexivity).
  rewrite forallb_forall in Hall.
  specialize (Hall (Z.to_nat k)). rewrite Z2Nat.id in Hall by lia.
  unfold str_eqb in Hall.
  destruct (list_eq_dec ascii_dec (fixed2 k) (hundredths k)) as [E | E].
  - exact E.
  - assert (false = true); [| discriminate].
    apply Hall. apply in_seq. lia.
Qed.

Lemma toFixed2_positive (q : Qc) :
  sgn q = Gt ->
  Qle_bool (inject_Z (10 ^ 21)) q = false ->
  toFixed (Fin q) 2 = fixed2 (Qfloor (q * inject_Z 100 + (1 # 2))).
Proof.
  intros Hs Hb. unfold toFixed. rewrite Hs, Hb. reflexivity.
Qed.

Lemma Qfloor_between (z : Q) (k : Z) :
  (inject_Z k <= z)%Q -> (z < inject_Z (k + 1))%Q -> Qfloor z = k.
Proof.
  intros Hl Hu. apply Qfloor_resp_le in Hl. rewrite Qfloor_Z in Hl.
  assert (H := Qfloor_le z).
  assert (Hlt : (inject_Z (Qfloor z) < inject_Z (k + 1))%Q) by lra.
  rewrite <- Zlt_Qlt in Hlt. lia.
Qed.

Lemma nearest_hundredth (y r K N : Q) :
  (y * (1 - 3 * (1 # 9007199254740992)) <= r ->
   r <= y * (1 + 3 * (1 # 9007199254740992)) ->
   y * 4294967295 == 100 * N -> 1 <= N -> N <= 4294967295 ->
   2 * 4294967295 * K + 1 <= 2 * 10000 * N + 4294967295 ->
   2 * 10000 * N + 4294967295 + 1 <= 2 * 4294967295 * (K + 1) ->
   K <= r * 100 + (1 # 2) /\ r * 100 + (1 # 2) < K + 1 /\ 0 < r /\ r < 1000)%Q.
Proof. intros. repeat split; lra. Qed.

(** The percentage as the code computes it: the quotient by 2^32 - 1 and the
    product by 100, each rounded to a double, stay within 3 * 2^-53 (relative)
    of the exact percentage. *)
Lemma percentage_value (n : Z) :
  0 < n <= 4294967295 ->
  exists r : Qc,
    ((ofZ n / ofZ 4294967295) * ofZ 100)%js = Fin r /\
    (((100 * n) # 4294967295) * (1 - 3 * pow2 (-53)) <= r /\
     r <= ((100 * n) # 4294967295) * (1 + 3 * pow2 (-53)))%Q.
Proof.
  intro Hn. unfold JS.div, ofZ. fold u32Max. rewrite sgn_u32Max.
  set (t := (Q2Qc (inject_Z n) / u32Max)%Qc).
  assert (Et : (t == n # 4294967295)%Q).
  { unfold t, Qcdiv, Qcmult, Qcinv, u32Max. rewrite !Q2Qc_this.
    unfold Qeq, Qmult, Qinv, inject_Z. cbn [Qnum Qden]. lia. }
  assert (Tl : (1 # 4294967295 <= t)%Q)
    by (rewrite Et; unfold Qle; cbn [Qnum Qden]; lia).
  assert (Tu : (t <= 1)%Q) by (rewrite Et; unfold Qle; cbn [Qnum Qden]; lia).
  assert (Elo : pow2 (-1022) = 1 # Pos.pow 2 1022) by reflexivity.
  assert (Plo : (pow2 (-1022) <= 1 # 4294967295)%Q) by (vm_compute; discriminate).
  assert (Phi : (1000 <= pow2 1023)%Q) by (vm_compute; discriminate).
  assert (E53 : pow2 (-53) = 1 # 9007199254740992) by reflexivity.
  destruct (round_normal t ltac:(lra) ltac:(lra)) as (r1 & -> & L1 & U1).
  cbn [JS.mul]. set (t2 := (r1 * Q2Qc (inject_Z 100))%Qc).
  assert (Et2 : (t2 == r1 * 100)%Q).
  { unfold t2, Qcmult. rewrite !Q2Qc_this. reflexivity. }
  rewrite E53 in *.
  destruct (round_normal t2 ltac:(rewrite Et2; lra) ltac:(rewrite Et2; lra))
    as (r2 & -> & L2 & U2).
  exists r2. split; [reflexivity |].
  assert (Ey : ((100 * n) # 4294967295 == 100 * t)%Q).
  { rewrite Et. unfold Qeq, Qmult. cbn [Qnum Qden]. lia. }
  rewrite E53, Ey in *. rewrite Et2 in L2, U2. lra.
Qed.

(** C8. For a non-zero u32 numerator [n] the swap form shows the percentage
    [n / 4294967295 * 100] with two digits after the point: the string is the
    decimal writing of [k / 100] where [k] is the integer nearest to the
    percentage times 100, so that it is off by at most half a hundredth.  For
    a numerator of zero, or none, the result is the number 0. *)
Theorem humanReadablePercentage_two_digits (n : Z) :
  0 < n <= 4294967295 ->
  let k := (2 * 10000 * n + 4294967295) / (2 * 4294967295) in
  humanReadablePercentage (Some (ofZ n)) = AsString (hundredths k) /\
  2 * Z.abs (k * 4294967295 - 10000 * n) <= 4294967295 /\
  humanReadablePercentage (Some (ofZ 0)) = AsNumber (ofZ 0) /\
  humanReadablePercentage None = AsNumber (ofZ 0).
Proof.
  intros Hn k.
  assert (Hk : 0 <= k <= 10000).
  { unfold k. split.
    - apply Z.div_pos; lia.
    - apply Z.lt_succ_r. apply Z.div_lt_upper_bound; lia. }
  pose proof (Z.div_mod (2 * 10000 * n + 4294967295) (2 * 4294967295)
                ltac:(lia)) as Hd.
  pose proof (Z.mod_pos_bound (2 * 10000 * n + 4294967295) (2 * 4294967295)
                ltac:(lia)) as Hm.
  fold k in Hd.
  split; [| split; [| split; reflexivity]]; [| lia].
  unfold humanReadablePercentage.
  assert (Hpos : sgn (Q2Qc (inject_Z n)) = Gt) by (apply sgn_ofZ_pos; lia).
  replace (JS.truthy (ofZ n) && JS.nonZero (ofZ n)) with true
    by (unfold ofZ; simpl; now rewrite Hpos).
  destruct (percentage_value n Hn) as (r & -> & Lr & Ur). f_equal.
  assert (E53 : pow2 (-53) = 1 # 9007199254740992) by reflexivity.
  rewrite E53 in *.
  set (y := ((100 * n) # 4294967295)%Q) in *.
  assert (Ey : (y * 4294967295 == 100 * inject_Z n)%Q).
  { unfold y, Qeq, Qmult, inject_Z. cbn [Qnum Qden]. lia. }
  assert (Hn1 : (1 <= inject_Z n)%Q)
    by (change 1%Q with (inject_Z 1); rewrite <- Zle_Qle; lia).
  assert (Hn2 : (inject_Z n <= 4294967295)%Q)
    by (change 4294967295%Q with (inject_Z 4294967295); rewrite <- Zle_Qle; lia).
  (* the percentage is never half-way between two hundredths *)
  assert (Hodd : 2 * 4294967295 * k + 1 <= 2 * 10000 * n + 4294967295
                 /\ 2 * 10000 * n + 4294967295 + 1 <= 2 * 4294967295 * (k + 1)).
  { assert (Z.odd (2 * 10000 * n + 4294967295) = true).
    { rewrite Z.add_comm, <- Z.mul_assoc, Z.odd_add_mul_2. reflexivity. }
    assert (Z.odd (2 * 4294967295 * k) = false).
    { rewrite <- Z.mul_assoc, <- (Z.add_0_l (2 * _)), Z.odd_add_mul_2. reflexivity. }
    assert (Z.odd (2 * 4294967295 * (k + 1)) = false).
    { rewrite <- Z.mul_assoc, <- (Z.add_0_l (2 * _)), Z.odd_add_mul_2. reflexivity. }
    split.
    - assert (2 * 4294967295 * k <> 2 * 10000 * n + 4294967295) by congruence. lia.
    - assert (2 * 4294967295 * (k + 1) <> 2 * 10000 * n + 4294967295) by congruence.
      lia. }
  destruct Hodd as [Ho1 Ho2].
  rewrite Zle_Qle in Ho1, Ho2.
  rewrite !inject_Z_plus, !inject_Z_mult in Ho1, Ho2.
  rewrite (inject_Z_plus k 1) in Ho2.
  change (inject_Z 2) with 2%Q in *. change (inject_Z 10000) with 10000%Q in *.
  change (inject_Z 4294967295) with 4294967295%Q in *.
  change (inject_Z 1) with 1%Q in *.
  clearbody y.
  destruct (nearest_hundredth y r (inject_Z k) (inject_Z n) Lr Ur Ey Hn1 Hn2 Ho1 Ho2)
    as (Fl & Fu & Rpos & Rmax).
  rewrite toFixed2_positive.
  - replace (Qfloor (r * inject_Z 100 + (1 # 2))) with k.
    + apply fixed2_hundredths, Hk.
    + symmetry. apply Qfloor_between; [exact Fl |].
      rewrite inject_Z_plus. exact Fu.
  - apply sgn_Gt. unfold Qclt. rewrite Q2Qc_this. exact Rpos.
  - destruct (Qle_bool (inject_Z (10 ^ 21)) r) eqn:T; [| reflexivity].
    apply Qle_bool_iff in T. exfalso.
    assert ((1000 <= inject_Z (10 ^ 21))%Q) by (vm_compute; discriminate).
    lra.
Qed.

Lemma humanReadablePercentage_two_digits_witness :
  humanReadablePercentage (Some (ofZ 2147483647)) = AsString (lit "50.00").
Proof.
  refine (proj1 (humanReadablePercentage_two_digits 2147483647 _)). lia.
Defined.

(** ** toU128 on printed decimals *)

Lemma numeral_from (ds : str) (acc : Z) :
  fold_left (fun a ch => a * 10 + digitVal ch) ds acc
  = acc * 10 ^ Z.of_nat (List.length ds) + numeral ds.
Proof.
  unfold numeral. revert acc.
  induction ds as [| ch ds IH]; intro acc.
  - simpl. lia.
  - cbn [fold_left List.length]. rewrite IH, (IH (0 * 10 + digitVal ch)).
    rewrite Nat2Z.inj_succ, Z.pow_succ_r by lia. lia.
Qed.

Lemma numeral_cons (ch : ascii) (ds : str) :
  numeral (ch :: ds) = digitVal ch * 10 ^ Z.of_nat (List.length ds) + numeral ds.
Proof. unfold numeral at 1. cbn [fold_left]. rewrite numeral_from. lia. Qed.

Lemma numeral_app (a b : str) :
  numeral (a ++ b) = numeral a * 10 ^ Z.of_nat (List.length b) + numeral b.
Proof.
  unfold numeral at 1. rewrite fold_left_app. fold (numeral a).
  apply numeral_from.
Qed.

Lemma digitVal_range (ch : ascii) : isDigit ch = true -> 0 <= digitVal ch <= 9.
Proof.
  unfold isDigit, digitVal. intro H.
  apply andb_true_iff in H. destruct H as [H1 H2].
  apply N.leb_le in H1, H2. lia.
Qed.

Lemma numeral_bound (ds : str) :
  allDigits ds -> 0 <= numeral ds < 10 ^ Z.of_nat (List.length ds).
Proof.
  unfold allDigits. induction ds as [| ch ds IH]; intro H.
  - simpl. unfold numeral. simpl. lia.
  - cbn [forallb] in H. apply andb_true_iff in H. destruct H as [Hc Hds].
    rewrite numeral_cons. cbn [List.length].
    rewrite Nat2Z.inj_succ, Z.pow_succ_r by lia.
    pose proof (digitVal_range ch Hc). specialize (IH Hds). nia.
Qed.

Lemma numeral_zeros (n : nat) : numeral (zeros n) = 0.
Proof.
  induction n as [| n IH]; [reflexivity |].
  unfold zeros in *. cbn [repeat]. rewrite numeral_cons, IH. reflexivity.
Qed.

Lemma allDigits_zeros (n : nat) : allDigits (zeros n).
Proof. unfold allDigits, zeros. induction n; simpl; auto. Qed.

Lemma allDigits_app (a b : str) : allDigits a -> allDigits b -> allDigits (a ++ b).
Proof. unfold allDigits. intros Ha Hb. rewrite forallb_app, Ha, Hb. reflexivity. Qed.

Lemma allDigits_firstn (n : nat) (s : str) : allDigits s -> allDigits (firstn n s).
Proof.
  unfold allDigits. revert n. induction s as [| ch s IH]; intros [| n] H;
    simpl; try reflexivity.
  simpl in H. apply andb_true_iff in H. destruct H as [Hc Hs].
  rewrite Hc. simpl. now apply IH.
Qed.

Lemma allDigits_skipn (n : nat) (s : str) : allDigits s -> allDigits (skipn n s).
Proof.
  unfold allDigits. revert n. induction s as [| ch s IH]; intros [| n] H;
    simpl; try reflexivity; try assumption.
  simpl in H. apply andb_true_iff in H. destruct H as [Hc Hs]. now apply IH.
Qed.

(** The first [n] digits of a numeral are its quotient by a power of ten. *)
Lemma numeral_firstn (n : nat) (ds : str) :
  allDigits ds -> (n <= List.length ds)%nat ->
  numeral (firstn n ds) = numeral ds / 10 ^ Z.of_nat (List.length ds - n).
Proof.
  intros Hd Hn.
  pose proof (numeral_bound (skipn n ds) (allDigits_skipn n ds Hd)) as Hb.
  rewrite length_skipn in Hb.
  rewrite <- (firstn_skipn n ds) at 2. rewrite numeral_app, length_skipn.
  rewrite Z.div_add_l by (apply Z.pow_nonzero; lia).
  rewrite Z.div_small by exact Hb. lia.
Qed.

(** Twelve fractional digits: cut, never rounded, and filled with zeros. *)
Lemma numeral_pad_slice (fp : str) :
  allDigits fp ->
  List.length (padEnd0 12 (slice0 12 fp)) = 12%nat /\
  numeral (padEnd0 12 (slice0 12 fp))
  = numeral fp * 10 ^ 12 / 10 ^ Z.of_nat (List.length fp).
Proof.
  intro Hd. unfold padEnd0, slice0.
  destruct (Nat.le_gt_cases (List.length fp) 12) as [Hle | Hgt].
  - rewrite firstn_all2 by exact Hle. split.
    + rewrite length_app. unfold zeros. rewrite repeat_length. lia.
    + rewrite numeral_app, numeral_zeros. unfold zeros. rewrite repeat_length.
      replace (10 ^ 12) with
        (10 ^ Z.of_nat (12 - List.length fp) * 10 ^ Z.of_nat (List.length fp))
        by (rewrite <- Z.pow_add_r by lia; f_equal; lia).
      rewrite Z.mul_assoc, Z.div_mul by (apply Z.pow_nonzero; lia). lia.
  - assert (Hl : List.length (firstn 12 fp) = 12%nat)
      by (rewrite length_firstn; lia).
    rewrite Hl. split.
    + rewrite length_app, Hl. reflexivity.
    + cbn [Nat.sub zeros repeat]. rewrite app_nil_r.
      rewrite numeral_firstn by (assumption || lia).
      replace (10 ^ Z.of_nat (List.length fp)) with
        (10 ^ Z.of_nat (List.length fp - 12) * 10 ^ 12)
        by (rewrite <- Z.pow_add_r by lia; f_equal; lia).
      rewrite Z.div_mul_cancel_r by (try apply Z.pow_nonzero; lia).
      reflexivity.
Qed.

Lemma digit_is_not (ch other : ascii) :
  isDigit ch = true -> isDigit other = false -> Ascii.eqb ch other = false.
Proof.
  intros Hc Ho. destruct (Ascii.eqb_spec ch other) as [-> | _];
    [congruence | reflexivity].
Qed.

Lemma split_digits (s : str) : allDigits s -> split "." s = [s].
Proof.
  unfold allDigits. induction s as [| ch s IH]; intro H; [reflexivity |].
  cbn [forallb] in H. apply andb_true_iff in H. destruct H as [Hc Hs].
  cbn [split]. rewrite (digit_is_not ch "." Hc eq_refl), (IH Hs). reflexivity.
Qed.

Lemma split_point (ip fp : str) :
  allDigits ip -> allDigits fp -> split "." (ip ++ "."%char :: fp) = [ip; fp].
Proof.
  unfold allDigits. intros Hi Hf. induction ip as [| ch ip IH].
  - cbn [app split]. rewrite (split_digits fp Hf). reflexivity.
  - cbn [forallb] in Hi. apply andb_true_iff in Hi. destruct Hi as [Hc Hi].
    cbn [app split]. rewrite (digit_is_not ch "." Hc eq_refl), (IH Hi).
    reflexivity.
Qed.

Lemma span_digits (s : str) : allDigits s -> span isDigit s = (s, []).
Proof.
  unfold allDigits. induction s as [| ch s IH]; intro H; [reflexivity |].
  cbn [forallb] in H. apply andb_true_iff in H. destruct H as [Hc Hs].
  cbn [span]. rewrite Hc, (IH Hs). reflexivity.
Qed.

(** A non-empty string of digits reads back as a finite number. *)
Lemma Number_digits_finite (ip : str) :
  ip <> [] -> allDigits ip ->
  JS.isNaN (Number ip) || negb (JS.isFinite (Number ip)) = false.
Proof.
  intros Hne Hd. destruct ip as [| ch ds]; [congruence |].
  assert (Hc : isDigit ch = true).
  { unfold allDigits in Hd. cbn [forallb] in Hd.
    now apply andb_true_iff in Hd. }
  unfold Number, signOf.
  rewrite (digit_is_not ch "-" Hc eq_refl), (digit_is_not ch "+" Hc eq_refl).
  destruct (list_eq_dec ascii_dec (ch :: ds) (lit "Infinity")) as [E | _].
  - injection E as -> _. discriminate.
  - rewrite (span_digits _ Hd). reflexivity.
Qed.

Lemma BN_ofString_digits (s : str) :
  s <> [] -> allDigits s -> BN_ofString s = Ok (numeral s).
Proof.
  intros Hne Hd. destruct s as [| ch ds]; [congruence |].
  assert (Hc : isDigit ch = true).
  { unfold allDigits in Hd. cbn [forallb] in Hd.
    now apply andb_true_iff in Hd. }
  unfold BN_ofString. rewrite (digit_is_not ch "-" Hc eq_refl).
  unfold allDigits in Hd. rewrite Hd. reflexivity.
Qed.

(** A number printed in plain notation with a fraction, [ip.fp], is encoded
    as the integer [floor (ip.fp * 10^12)]: the digits after the twelfth are
    cut. *)
Lemma toU128_plain_notation (x : number) (ip fp : str) :
  ip <> [] -> allDigits ip -> allDigits fp ->
  toString x = ip ++ lit "." ++ fp ->
  toU128 (Num x) = Ok (numeral (ip ++ fp) * 10 ^ 12 / 10 ^ Z.of_nat (List.length fp)).
Proof.
  intros Hne Hi Hf Hs. unfold toU128. rewrite Hs.
  change (ip ++ lit "." ++ fp) with (ip ++ "."%char :: fp).
  rewrite (split_point ip fp Hi Hf). cbn [nth_error orEmpty].
  rewrite (Number_digits_finite ip Hne Hi).
  destruct (numeral_pad_slice fp Hf) as [Hlen Hval].
  rewrite BN_ofString_digits.
  - f_equal. rewrite numeral_app, Hlen, Hval, numeral_app.
    rewrite Z.mul_add_distr_r.
    rewrite <- Z.mul_assoc, (Z.mul_comm (10 ^ Z.of_nat (List.length fp))),
      Z.mul_assoc.
    rewrite Z.div_add_l by (apply Z.pow_nonzero; lia).
    reflexivity.
  - destruct ip; [congruence | discriminate].
  - apply allDigits_app; [exact Hi |].
    apply allDigits_app; [apply allDigits_firstn, Hf | apply allDigits_zeros].
Qed.

(** A number printed as an integer in plain notation is scaled by 10^12. *)
Lemma toU128_integer_notation (x : number) (ip : str) :
  ip <> [] -> allDigits ip ->
  toString x = ip ->
  toU128 (Num x) = Ok (numeral ip * 10 ^ 12).
Proof.
  intros Hne Hi Hs. unfold toU128. rewrite Hs.
  rewrite (split_digits ip Hi). cbn [nth_error orEmpty].
  rewrite (Number_digits_finite ip Hne Hi).
  rewrite BN_ofString_digits.
  - f_equal. rewrite numeral_app. unfold padEnd0, slice0. cbn [firstn app].
    rewrite numeral_zeros. unfold zeros. rewrite repeat_length. simpl. lia.
  - destruct ip; [congruence | discriminate].
  - apply allDigits_app; [exact Hi |]. unfold padEnd0, slice0. cbn [firstn app].
    apply allDigits_zeros.
Qed.

(** ** What is printed before the point *)

Lemma digitChar_code (r : Z) :
  0 <= r <= 9 -> N_of_ascii (digitChar r) = Z.to_N (r + 48).
Proof. intro H. unfold digitChar. apply N_ascii_embedding. lia. Qed.

Lemma digitChar_isDigit (r : Z) : 0 <= r <= 9 -> isDigit (digitChar r) = true.
Proof.
  intro H. unfold isDigit. rewrite (digitChar_code r H).
  apply andb_true_iff. split; apply N.leb_le; lia.
Qed.

Lemma digitChar_not_zero (r : Z) :
  1 <= r <= 9 -> Ascii.eqb (digitChar r) "0" = false.
Proof.
  intro H. apply Ascii.eqb_neq. intro E.
  apply (f_equal N_of_ascii) in E. rewrite digitChar_code in E by lia.
  change (N_of_ascii "0") with 48%N in E. lia.
Qed.

Lemma digitsFrom_allDigits (fuel : nat) (n : Z) (acc : str) :
  allDigits acc -> allDigits (digitsFrom fuel n acc).
Proof.
  revert n acc. induction fuel as [| fuel IH]; intros n acc Hacc; [exact Hacc |].
  cbn [digitsFrom].
  assert (Hacc' : allDigits (digitChar (n mod 10) :: acc)).
  { unfold allDigits in *. cbn [forallb].
    rewrite digitChar_isDigit by (pose proof (Z.mod_pos_bound n 10); lia).
    exact Hacc. }
  destruct (n <? 10); [exact Hacc' | now apply IH].
Qed.

Lemma digits_allDigits (n : Z) : allDigits (digits n).
Proof. apply digitsFrom_allDigits. reflexivity. Qed.

(** With enough fuel the leading digit of a positive number is not zero. *)
Lemma digitsFrom_head (fuel : nat) (n : Z) (acc : str) :
  1 <= n < 10 ^ Z.of_nat fuel ->
  exists d ds, digitsFrom fuel n acc = d :: ds /\ isDigit d = true /\
               Ascii.eqb d "0" = false.
Proof.
  revert n acc. induction fuel as [| fuel IH]; intros n acc Hn.
  - simpl in Hn. lia.
  - cbn [digitsFrom]. destruct (n <? 10) eqn:E.
    + apply Z.ltb_lt in E. rewrite Z.mod_small by lia.
      exists (digitChar n), acc. split; [reflexivity |].
      split; [apply digitChar_isDigit | apply digitChar_not_zero]; lia.
    + apply Z.ltb_ge in E. apply IH.
      rewrite Nat2Z.inj_succ, Z.pow_succ_r in Hn by lia. split.
      * apply Z.div_le_lower_bound; lia.
      * apply Z.div_lt_upper_bound; lia.
Qed.

Lemma pow10_above (z : Z) : 1 <= z -> z < 10 ^ Z.of_nat (S (Z.to_nat (Z.log2 z))).
Proof.
  intro Hz. pose proof (Z.log2_nonneg z) as Hl.
  destruct (Z.log2_spec z ltac:(lia)) as [_ Hu].
  rewrite Nat2Z.inj_succ, Z2Nat.id by lia.
  apply Z.lt_le_trans with (2 ^ Z.succ (Z.log2 z)); [exact Hu |].
  apply Z.pow_le_mono_l. lia.
Qed.

Lemma digits_head (n : Z) :
  1 <= n ->
  exists d ds, digits n = d :: ds /\ isDigit d = true /\ Ascii.eqb d "0" = false.
Proof. intro Hn. apply digitsFrom_head. split; [lia | now apply pow10_above]. Qed.

Lemma digitsFrom_length (fuel : nat) (z : Z) (acc : str) :
  1 <= z ->
  10 ^ (Z.of_nat (List.length (digitsFrom fuel z acc))
        - Z.of_nat (List.length acc) - 1) <= z.
Proof.
  revert z acc. induction fuel as [| fuel IH]; intros z acc Hz.
  - cbn [digitsFrom]. rewrite Z.pow_neg_r by lia. lia.
  - cbn [digitsFrom]. destruct (z <? 10) eqn:E.
    + cbn [List.length]. rewrite Nat2Z.inj_succ.
      replace (Z.succ (Z.of_nat (List.length acc)) - Z.of_nat (List.length acc) - 1)
        with 0 by lia.
      simpl. lia.
    + apply Z.ltb_ge in E.
      assert (Hq : 1 <= z / 10) by (apply Z.div_le_lower_bound; lia).
      specialize (IH (z / 10) (digitChar (z mod 10) :: acc) Hq).
      cbn [List.length] in IH. rewrite Nat2Z.inj_succ in IH.
      set (len := Z.of_nat (List.length
                    (digitsFrom fuel (z / 10) (digitChar (z mod 10) :: acc)))) in *.
      set (la := Z.of_nat (List.length acc)) in *.
      destruct (Z.le_gt_cases (len - la - 1) 0) as [Hneg | Hpos].
      * destruct (Z.eq_dec (len - la - 1) 0) as [-> | Hne]; [simpl; lia |].
        rewrite Z.pow_neg_r by lia. lia.
      * replace (len - la - 1) with (Z.succ (len - Z.succ la - 1)) by lia.
        rewrite Z.pow_succ_r by lia.
        pose proof (Z.mul_div_le z 10 ltac:(lia)). lia.
Qed.

Lemma digits_length (z : Z) :
  1 <= z -> 10 ^ (Z.of_nat (List.length (digits z)) - 1) <= z.
Proof.
  intro Hz. pose proof (digitsFrom_length (S (Z.to_nat (Z.log2 z))) z [] Hz) as H.
  cbn [List.length] in H. unfold digits. now rewrite Z.sub_0_r in H.
Qed.

Lemma shiftsToUnit_reaches (fuel : nat) (a b : Z) :
  0 < a -> b <= a * 10 ^ Z.of_nat fuel ->
  0 <= shiftsToUnit fuel a b /\ b <= a * 10 ^ shiftsToUnit fuel a b.
Proof.
  revert a. induction fuel as [| fuel IH]; intros a Ha Hb.
  - simpl in *. lia.
  - cbn [shiftsToUnit]. destruct (b <=? a) eqn:E.
    + apply Z.leb_le in E. simpl. lia.
    + rewrite Nat2Z.inj_succ, Z.pow_succ_r in Hb by lia.
      destruct (IH (a * 10) ltac:(lia) ltac:(lia)) as [Hj Hr].
      split; [lia |].
      replace (1 + shiftsToUnit fuel (a * 10) b)
        with (Z.succ (shiftsToUnit fuel (a * 10) b)) by lia.
      rewrite Z.pow_succ_r by lia. lia.
Qed.

Lemma scale10_ge_one (a : Z) (b : positive) (e : Z) :
  0 < a ->
  (0 <= e -> Zpos b <= a * 10 ^ e) ->
  (e < 0 -> Zpos b * 10 ^ (- e) <= a) ->
  (1 <= scale10 (a # b) e)%Q.
Proof.
  intros Ha Hpos Hneg. unfold scale10. destruct (0 <=? e) eqn:E.
  - apply Z.leb_le in E. specialize (Hpos E).
    unfold Qle, Qmult, inject_Z. cbn [Qnum Qden]. lia.
  - apply Z.leb_gt in E. specialize (Hneg E).
    assert (Hp : 0 < 10 ^ (- e)) by (apply Z.pow_pos_nonneg; lia).
    destruct (10 ^ (- e)) as [| p | p] eqn:Ep; try lia.
    unfold Qle, Qdiv, Qmult, Qinv, inject_Z. cbn [Qnum Qden]. lia.
Qed.

Lemma decimalExponent_scale (a : Z) (b : positive) :
  0 < a -> (1 <= scale10 (a # b) (17 - decimalExponent a (Zpos b)))%Q.
Proof.
  intro Ha. unfold decimalExponent. destruct (Zpos b <=? a) eqn:E.
  - apply Z.leb_le in E.
    assert (Hq : 1 <= a / Zpos b) by (apply Z.div_le_lower_bound; lia).
    pose proof (digits_length _ Hq) as Hl.
    pose proof (Z.mul_div_le a (Zpos b) ltac:(lia)) as Hd.
    set (L := Z.of_nat (List.length (digits (a / Zpos b)))) in *.
    apply scale10_ge_one; [exact Ha | |].
    + intro He. assert (0 < 10 ^ (17 - L)) by (apply Z.pow_pos_nonneg; lia). nia.
    + intro He. replace (- (17 - L)) with (L - 17) by lia.
      assert (Hm : 10 ^ (L - 17) <= 10 ^ (L - 1))
        by (apply Z.pow_le_mono_r; lia).
      assert (0 < 10 ^ (L - 17)) by (apply Z.pow_pos_nonneg; lia).
      nia.
  - apply Z.leb_gt in E.
    set (fuel := S (S (Z.to_nat (Z.log2 (Zpos b))))).
    assert (Hf : Zpos b <= a * 10 ^ Z.of_nat fuel).
    { pose proof (pow10_above (Zpos b) ltac:(lia)) as Hb.
      unfold fuel. rewrite Nat2Z.inj_succ, Z.pow_succ_r by lia.
      set (p := 10 ^ Z.of_nat (S (Z.to_nat (Z.log2 (Zpos b))))) in *. nia. }
    destruct (shiftsToUnit_reaches fuel a (Zpos b) Ha Hf) as [Hj Hr].
    set (j := shiftsToUnit fuel a (Zpos b)) in *.
    apply scale10_ge_one; [exact Ha | |].
    + intros _. replace (17 - (1 - j)) with (16 + j) by lia.
      rewrite Z.pow_add_r by lia.
      assert (0 < 10 ^ j) by (apply Z.pow_pos_nonneg; lia). nia.
    + intro He. lia.
Qed.

Lemma strip_head (d : ascii) (ds : str) :
  Ascii.eqb d "0" = false -> exists ds', stripTrailingZeros (d :: ds) = d :: ds'.
Proof.
  intro Hd. cbn [stripTrailingZeros]. rewrite Hd.
  destruct (stripTrailingZeros ds); eauto.
Qed.

Lemma strip_allDigits (s : str) : allDigits s -> allDigits (stripTrailingZeros s).
Proof.
  unfold allDigits. induction s as [| ch s IH]; intro H; [reflexivity |].
  cbn [forallb] in H. apply andb_true_iff in H. destruct H as [Hc Hs].
  cbn [stripTrailingZeros]. specialize (IH Hs).
  destruct (stripTrailingZeros s) as [| t ts].
  - destruct (Ascii.eqb ch "0"); [reflexivity |]. cbn [forallb]. now rewrite Hc.
  - cbn [forallb] in *. now rewrite Hc.
Qed.

Lemma shortest_positive (fuel : nat) (k : Z) (q : Q) (m n : Z) :
  1 <= k -> shortest fuel k q = Some (m, n) -> 1 <= m.
Proof.
  revert k. induction fuel as [| fuel IH]; intros k Hk H; [discriminate |].
  cbn [shortest] in H.
  destruct (find (readsBack q k) (digitsAt q k)) as [c |] eqn:F.
  - injection H as ->. apply find_some in F. destruct F as [_ F].
    unfold readsBack in F. apply andb_true_iff in F. destruct F as [F _].
    apply andb_true_iff in F. destruct F as [F _]. apply Z.leb_le in F.
    assert (0 < 10 ^ (k - 1)) by (apply Z.pow_pos_nonneg; lia). lia.
  - apply (IH (k + 1)); [lia | exact H].
Qed.

Lemma stripped_digits (m : Z) :
  1 <= m ->
  exists d ds, stripTrailingZeros (digits m) = d :: ds /\ allDigits (d :: ds).
Proof.
  intro Hpos. destruct (digits_head m Hpos) as (d & ds & Hd & _ & Hnz).
  destruct (strip_head d ds Hnz) as (ds' & Hs).
  exists d, ds'. rewrite Hd, Hs. split; [reflexivity |].
  rewrite <- Hs, <- Hd. apply strip_allDigits, digits_allDigits.
Qed.

(** The significant digits of a positive rational: digits, the first of
    them not zero. *)
Lemma significand_shape (q : Q) :
  0 < Qnum q ->
  exists d ds n, significand q = (d :: ds, n) /\ allDigits (d :: ds).
Proof.
  destruct q as [a b]. cbn [Qnum]. intro Ha. unfold significand.
  destruct (shortest 17 1 (a # b)) as [[m0 n0] |] eqn:S.
  - apply shortest_positive in S; [| lia].
    destruct (stripped_digits m0 S) as (d & ds & -> & Hall). eauto.
  - cbn [Qnum Qden].
    set (n := decimalExponent a (Zpos b)).
    set (m := Qfloor (scale10 (a # b) (17 - n) + (1 # 2))).
    assert (Hm : 1 <= m).
    { unfold m. change 1 with (Qfloor (inject_Z 1)) at 1.
      apply Qfloor_resp_le.
      pose proof (decimalExponent_scale a b Ha) as Hs. fold n in Hs.
      apply Qle_trans with (scale10 (a # b) (17 - n)); [exact Hs |].
      rewrite <- (Qplus_0_r (scale10 (a # b) (17 - n))) at 1.
      apply Qplus_le_r. discriminate. }
    assert (Hm' : exists m' n', (if m =? 10 ^ 17 then (10 ^ 16, n + 1) else (m, n))
                                = (m', n') /\ 1 <= m').
    { destruct (m =? 10 ^ 17); eexists; eexists; (split; [reflexivity | lia]). }
    destruct Hm' as (m' & n' & -> & Hpos).
    destruct (stripped_digits m' Hpos) as (d & ds & -> & Hall). eauto.
Qed.

Lemma split_first (s : str) : nth_error (split "." s) 0 = Some (firstPiece s).
Proof.
  unfold firstPiece. destruct s as [| ch s]; [reflexivity |].
  cbn [split]. destruct (Ascii.eqb ch "."); [reflexivity |].
  destruct (split "." s); reflexivity.
Qed.

Lemma firstPiece_cons (ch : ascii) (s : str) :
  Ascii.eqb ch "." = false -> firstPiece (ch :: s) = ch :: firstPiece s.
Proof.
  intro H. unfold firstPiece. cbn [split]. rewrite H.
  destruct s as [| c s]; [reflexivity |].
  cbn [split]. destruct (Ascii.eqb c "."); [reflexivity |].
  destruct (split "." s); reflexivity.
Qed.

Lemma firstPiece_digits (ip rest : str) :
  allDigits ip -> firstPiece (ip ++ rest) = ip ++ firstPiece rest.
Proof.
  unfold allDigits. induction ip as [| ch ip IH]; intro H; [reflexivity |].
  cbn [forallb] in H. apply andb_true_iff in H. destruct H as [Hc Hi].
  cbn [app]. rewrite firstPiece_cons by (apply digit_is_not; [exact Hc | reflexivity]).
  now rewrite IH.
Qed.

Lemma digitsFrom_nonempty (fuel : nat) (z : Z) (acc : str) :
  acc <> [] -> digitsFrom fuel z acc <> [].
Proof.
  revert z acc. induction fuel as [| fuel IH]; intros z acc Hacc; [exact Hacc |].
  cbn [digitsFrom]. destruct (z <? 10); [discriminate |].
  apply IH. discriminate.
Qed.

Lemma digits_nonempty (z : Z) : digits z <> [].
Proof.
  unfold digits. cbn [digitsFrom]. destruct (z <? 10); [discriminate |].
  apply digitsFrom_nonempty. discriminate.
Qed.

Lemma firstPiece_allDigits (s : str) : allDigits s -> firstPiece s = s.
Proof. intro H. unfold firstPiece. now rewrite split_digits. Qed.

Lemma formatDecimal_integerPart (d : ascii) (ds : str) (n : Z) :
  allDigits (d :: ds) -> integerPart (firstPiece (formatDecimal (d :: ds) n)).
Proof.
  intro Hs.
  assert (Hd : isDigit d = true).
  { unfold allDigits in Hs. cbn [forallb] in Hs. now apply andb_true_iff in Hs. }
  unfold formatDecimal.
  destruct ((Z.of_nat (List.length (d :: ds)) <=? n) && (n <=? 21)).
  { rewrite firstPiece_allDigits
      by (apply allDigits_app; [exact Hs | apply allDigits_zeros]).
    apply plainPart; [discriminate |].
    apply allDigits_app; [exact Hs | apply allDigits_zeros]. }
  destruct ((0 <? n) && (n <=? 21)) eqn:E2.
  { apply andb_true_iff in E2. destruct E2 as [Hn _]. apply Z.ltb_lt in Hn.
    rewrite firstPiece_digits by (apply allDigits_firstn, Hs).
    change (firstPiece (lit "." ++ skipn (Z.to_nat n) (d :: ds))) with (@nil ascii).
    rewrite app_nil_r.
    apply plainPart; [| apply allDigits_firstn, Hs].
    destruct (Z.to_nat n) eqn:En; [lia | discriminate]. }
  destruct ((-6 <? n) && (n <=? 0)).
  { change (firstPiece (lit "0." ++ zeros (Z.to_nat (- n)) ++ d :: ds))
      with (lit "0").
    apply plainPart; [discriminate | reflexivity]. }
  set (sign := if n - 1 <? 0 then lit "-" else lit "+").
  assert (He : exists sg, sign = [sg] /\ (sg = "-"%char \/ sg = "+"%char)).
  { unfold sign.
    destruct (n - 1 <? 0); [exists "-"%char | exists "+"%char]; split; auto. }
  destruct He as (sg & -> & Hsg).
  assert (Hsgdot : Ascii.eqb sg "." = false)
    by (destruct Hsg as [-> | ->]; reflexivity).
  pose proof (digits_allDigits (Z.abs (n - 1))) as Hdig.
  pose proof (digits_nonempty (Z.abs (n - 1))) as Hne.
  destruct ds as [| d2 ds].
  - cbn [app list_ascii_of_string].
    rewrite firstPiece_cons by (apply digit_is_not; [exact Hd | reflexivity]).
    rewrite firstPiece_cons by reflexivity.
    rewrite firstPiece_cons by exact Hsgdot.
    rewrite firstPiece_allDigits by exact Hdig.
    now apply scientificPart.
  - cbn [app list_ascii_of_string].
    rewrite firstPiece_cons by (apply digit_is_not; [exact Hd | reflexivity]).
    unfold firstPiece. cbn [split Ascii.eqb Bool.eqb hd].
    apply plainPart; [discriminate |].
    unfold allDigits. cbn [forallb]. now rewrite Hd.
Qed.

Lemma Number_integerPart (B : str) :
  integerPart B ->
  JS.isFinite (Number B) = true /\ JS.isFinite (Number ("-"%char :: B)) = true.
Proof.
  intros [ip Hne Hd | d sg e Hd Hsg Hne He].
  - destruct ip as [| ch ds]; [congruence |].
    assert (Hc : isDigit ch = true).
    { unfold allDigits in Hd. cbn [forallb] in Hd.
      now apply andb_true_iff in Hd. }
    split.
    + pose proof (Number_digits_finite (ch :: ds) Hne Hd) as H.
      destruct (Number (ch :: ds)); [discriminate | discriminate | reflexivity].
    + unfold Number, signOf. cbn [Ascii.eqb Bool.eqb].
      destruct (list_eq_dec ascii_dec (ch :: ds) (lit "Infinity")) as [E | _].
      * injection E as -> _. discriminate.
      * rewrite (span_digits _ Hd). reflexivity.
  - assert (Hexp : exists z, exponentPart ("e"%char :: sg :: e) = Some z).
    { unfold exponentPart, signOf. cbn [Ascii.eqb Bool.eqb orb].
      unfold allDigits in He.
      destruct Hsg as [-> | ->]; cbn [Ascii.eqb Bool.eqb]; rewrite He;
        destruct e; try congruence; eauto. }
    destruct Hexp as (z & Hz).
    assert (Hspan : span isDigit (d :: "e"%char :: sg :: e)
                    = ([d], "e"%char :: sg :: e)).
    { cbn [span]. rewrite Hd. reflexivity. }
    split.
    + unfold Number, signOf.
      rewrite (digit_is_not d "-" Hd eq_refl), (digit_is_not d "+" Hd eq_refl).
      destruct (list_eq_dec ascii_dec (d :: "e"%char :: sg :: e) (lit "Infinity"))
        as [E | _]; [injection E as -> _; discriminate |].
      rewrite Hspan. cbn [Ascii.eqb Bool.eqb]. rewrite Hz. reflexivity.
    + unfold Number, signOf. cbn [Ascii.eqb Bool.eqb].
      destruct (list_eq_dec ascii_dec (d :: "e"%char :: sg :: e) (lit "Infinity"))
        as [E | _]; [injection E as -> _; discriminate |].
      rewrite Hspan. cbn [Ascii.eqb Bool.eqb]. rewrite Hz. reflexivity.
Qed.

Lemma positive_numerator (q : Q) : (0 < q)%Q -> 0 < Qnum q.
Proof. unfold Qlt. cbn [Qnum Qden]. lia. Qed.

(** The part before the point of a printed number reads back as a finite
    number exactly when the number is finite. *)
Lemma printed_integer_part_finite (x : number) :
  JS.isFinite (Number (firstPiece (toString x))) = JS.isFinite x.
Proof.
  destruct x as [| [|] | q]; try reflexivity.
  cbn [toString JS.isFinite]. destruct (sgn q) eqn:Es.
  - reflexivity.
  - assert (Hq : (q < Q2Qc 0)%Qc) by (apply Qclt_alt; exact Es).
    assert (Hpos : 0 < Qnum (- q)%Q).
    { apply positive_numerator. unfold Qclt in Hq. rewrite Q2Qc_this in Hq.
      apply Qopp_lt_compat in Hq. exact Hq. }
    destruct (significand_shape _ Hpos) as (d & ds & n & -> & Hs).
    change (lit "-" ++ formatDecimal (d :: ds) n)
      with ("-"%char :: formatDecimal (d :: ds) n).
    rewrite firstPiece_cons by reflexivity.
    apply Number_integerPart, formatDecimal_integerPart, Hs.
  - assert (Hq : (Q2Qc 0 < q)%Qc) by (apply Qcgt_alt; exact Es).
    assert (Hpos : 0 < Qnum q).
    { apply positive_numerator. unfold Qclt in Hq.
      rewrite Q2Qc_this in Hq. exact Hq. }
    destruct (significand_shape _ Hpos) as (d & ds & n & -> & Hs).
    apply Number_integerPart, formatDecimal_integerPart, Hs.
Qed.

(** ** toU128 on numbers that do not print as a finite number *)

(** C10. When the part of the printed number before the point does not read
    back as a finite number, [toU128] returns the big integer 0; no error is
    raised.  The numbers this happens to are NaN and the two infinities. *)
Theorem toU128_unparsable_is_zero (x : number) (beforeDec : str) :
  nth_error (split "." (toString x)) 0 = Some beforeDec ->
  JS.isFinite (Number beforeDec) = false ->
  toU128 (Num x) = Ok 0 /\ JS.isFinite x = false.
Proof.
  intros Hb Hn. split.
  - unfold toU128. rewrite Hb.
    destruct (Number beforeDec); [reflexivity | reflexivity | discriminate].
  - rewrite split_first in Hb. injection Hb as <-.
    now rewrite printed_integer_part_finite in Hn.
Qed.

Lemma toU128_unparsable_is_zero_witness :
  nth_error (split "." (toString NaN)) 0 = Some (lit "NaN") /\
  JS.isFinite (Number (lit "NaN")) = false /\
  toU128 (Num NaN) = Ok 0.
Proof.
  split; [reflexivity |]. split; [reflexivity |].
  apply (toU128_unparsable_is_zero NaN (lit "NaN")); reflexivity.
Defined.

Lemma toU128_NaN_and_infinities :
  toU128 (Num NaN) = Ok 0 /\
  toU128 (Num (Infinity false)) = Ok 0 /\
  toU128 (Num (Infinity true)) = Ok 0.
Proof.
  split; [| split]; vm_compute; reflexivity.
Qed.

(** A finite number never takes that branch: it is handed to the big-number
    constructor as printed. *)
Lemma toU128_finite (q : Qc) :
  toU128 (Num (Fin q))
  = BN_ofString
      (firstPiece (toString (Fin q))
       ++ padEnd0 12 (slice0 12 (orEmpty (nth_error (split "." (toString (Fin q))) 1)))).
Proof.
  unfold toU128. rewrite split_first.
  pose proof (printed_integer_part_finite (Fin q)) as H. cbn [JS.isFinite] in H.
  destruct (Number (firstPiece (toString (Fin q)))); try discriminate.
  reflexivity.
Qed.

(** C2, at a failing input.  JavaScript prints 1.234567890123e-7 in exponent
    notation; [toU128] takes the "1" before the point as the integer part and
    the twelve characters after it as the fraction, and returns
    1234567890123, the encoding of 1.234567890123.  The integer part of the
    number followed by its first twelve fractional digits is 123456.  A BN
    argument is returned as it is. *)
Theorem toU128_exponent_notation :
  dec "1.234567890123e-7" = Fin tiny /\
  toString (Fin tiny) = lit "1.234567890123e-7" /\
  toU128 (Num (Fin tiny)) = Ok 1234567890123 /\
  Qfloor (tiny * inject_Z (10 ^ 12)) = 123456 /\
  toU128 (Num (dec "1e-7")) = Err (JsError "Invalid character") /\
  toU128 (Num (dec "1e21")) = Err (JsError "Invalid character") /\
  forall b, toU128 (Big b) = Ok b.
Proof.
  split; [qc_compute |].
  repeat (split; [vm_compute; reflexivity |]).
  reflexivity.
Qed.

(** * Further properties of the builders *)

(** ** The encoding of printed numbers *)

Lemma Qfloor_div_mul (a b c : Z) :
  0 < b -> Qfloor (inject_Z a / inject_Z b * inject_Z c) = a * c / b.
Proof.
  intro Hb. destruct b as [| p | p]; try lia.
  unfold Qdiv, Qinv, inject_Z, Qmult, Qfloor. cbn [Qnum Qden].
  rewrite Z.mul_1_r, Pos.mul_1_l, Pos.mul_1_r. reflexivity.
Qed.


Lemma toU128_encodes (e : number) (u : BN) : toU128 (Num e) = Ok u -> encodes e u.
Proof.
  intro H. split; [exact H |]. split.
  - intros ip fp Hne Hi Hf Hs.
    rewrite (toU128_plain_notation e ip fp Hne Hi Hf Hs) in H.
    injection H as <-. unfold printedValue.
    rewrite Qfloor_div_mul; [reflexivity |]. apply Z.pow_pos_nonneg; lia.
  - intros ip Hne Hi Hs.
    rewrite (toU128_integer_notation e ip Hne Hi Hs) in H. now injection H as <-.
Qed.

Lemma Forall2_encodes (es : list number) (us : list BN) :
  mapM toU128 (map Num es) = Ok us -> Forall2 encodes es us.
Proof.
  intro H. apply mapM_Forall2 in H.
  apply (Forall2_map_l Num (fun x u => toU128 x = Ok u)) in H.
  induction H as [| e u es us He _ IH]; constructor; [| exact IH].
  now apply toU128_encodes.
Qed.

(** ** Integers as numbers and big integers *)

Lemma ofZ_this (z : Z) : this (Q2Qc (inject_Z z)) = inject_Z z.
Proof. unfold Q2Qc. cbn [this]. apply Qred_identity. simpl. apply Z.gcd_1_r. Qed.

Lemma BN_ofNumber_ofZ_inv (z t : Z) :
  BN_ofNumber (ofZ z) = Ok t -> t = z /\ Z.abs z < 2 ^ 53.
Proof.
  unfold BN_ofNumber, ofZ. rewrite ofZ_this. cbn [Qnum Qden inject_Z].
  rewrite Z.quot_1_r. destruct (Z.abs z <? 2 ^ 53) eqn:E; intro H.
  - injection H as <-. apply Z.ltb_lt in E. auto.
  - discriminate.
Qed.

Lemma BN_ofNumber_ofZ_large (z : Z) :
  2 ^ 53 <= Z.abs z -> BN_ofNumber (ofZ z) = Err assertionFailed.
Proof.
  intro H. unfold BN_ofNumber, ofZ. rewrite ofZ_this. cbn [Qnum Qden inject_Z].
  rewrite Z.quot_1_r. destruct (Z.abs z <? 2 ^ 53) eqn:E; [| reflexivity].
  apply Z.ltb_lt in E. lia.
Qed.

Lemma buyInstructions_locals
    (amountAsNum : BN -> MintInfo -> number) (curve : IPricingCurve.t)
    (acct : TokenBondingV0) (targetMint baseMint : MintInfo)
    (desired base : option NumOrBN) (slippage : number) (args : BuyV0Args.t) :
  buyInstructions amountAsNum curve acct targetMint baseMint desired base slippage
  = Ok args ->
  exists l1 l2,
    buyByTarget amountAsNum curve acct targetMint baseMint desired slippage
      initialLocals = Ok l1 /\
    buyByBase amountAsNum curve acct targetMint baseMint base slippage l1 = Ok l2 /\
    BuyV0Args.buyTargetAmount args = l_buyTargetAmount l2 /\
    BuyV0Args.buyWithBase args = l_buyWithBase l2.
Proof.
  unfold buyInstructions. intro H.
  apply bind_Ok in H. destruct H as (l1 & H1 & H).
  apply bind_Ok in H. destruct H as (l2 & H2 & H).
  apply bind_Ok in H. destruct H as (es & _ & H).
  injection H as <-. exists l1, l2. cbn. auto.
Qed.

(** ** Rounding of the amounts of a buy *)

(** X1. In a buy by desired target amount the two raw amounts bracket the
    amounts the builder computes: [targetAmount] is the needed amount scaled
    to raw units, [q], rounded down, and [maximumPrice] is the curve's price
    with slippage scaled to raw units, [m], rounded up; each is less than one
    raw unit away.  [q] and [m] are the doubles that the products give. *)
Theorem buy_amounts_bracket
    (amountAsNum : BN -> MintInfo -> number) (curve : IPricingCurve.t)
    (acct : TokenBondingV0) (targetMint baseMint : MintInfo)
    (desired base : option NumOrBN) (slippage : number)
    (d : NumOrBN) (q m : Qc) (args : BuyV0Args.t) :
  let desiredNum :=
    match d with
    | Num x => x
    | Big b => amountAsNum b targetMint
    end in
  given desired = Some d ->
  (desiredNum * (ofZ 1 / (ofZ 1 - asDecimal (buyTargetRoyaltyPercentage acct)))
   * pow10 (decimals targetMint))%js = Fin q ->
  (IPricingCurve.buyTargetAmount curve desiredNum
     (buyBaseRoyaltyPercentage acct) (buyTargetRoyaltyPercentage acct)
   * (ofZ 1 + slippage) * pow10 (decimals baseMint))%js = Fin m ->
  buyInstructions amountAsNum curve acct targetMint baseMint desired base slippage
  = Ok args ->
  exists bt,
    BuyV0Args.buyTargetAmount args = Some bt /\
    (inject_Z (BuyV0Args.targetAmount bt) <= q
     < inject_Z (BuyV0Args.targetAmount bt + 1))%Q /\
    (inject_Z (BuyV0Args.maximumPrice bt - 1) < m
     <= inject_Z (BuyV0Args.maximumPrice bt))%Q.
Proof.
  intros desiredNum Hd Hq Hm H.
  assert (Hnum : toNumber amountAsNum d targetMint = desiredNum)
    by (destruct d; reflexivity).
  apply buyInstructions_locals in H.
  destruct H as (l1 & l2 & H1 & H2 & Ht & _).
  rewrite (buyByBase_keeps_target _ _ _ _ _ _ _ _ _ H2) in Ht.
  unfold buyByTarget in H1. rewrite Hd, Hnum in H1. unfold neededAmount in H1.
  apply bind_Ok in H1. destruct H1 as (ta & Hta & H1).
  apply bind_Ok in H1. destruct H1 as (mp & Hmp & H1).
  injection H1 as <-. cbn [l_buyTargetAmount] in Ht.
  eexists. split; [exact Ht |]. cbn [BuyV0Args.targetAmount BuyV0Args.maximumPrice].
  rewrite Hq in Hta. cbn [JS.floor] in Hta.
  apply BN_ofNumber_ofZ_inv in Hta. destruct Hta as [-> _].
  unfold toBN in Hmp. rewrite Hm in Hmp. cbn [JS.ceil] in Hmp.
  apply BN_ofNumber_ofZ_inv in Hmp. destruct Hmp as [-> _].
  split; split.
  - apply Qfloor_le.
  - apply Qlt_floor.
  - replace (Qceiling m - 1) with (Qceiling m - 1)%Z by reflexivity.
    apply Qceiling_lt.
  - apply Qle_ceiling.
Qed.

Lemma buy_amounts_bracket_witness :
  let args :=
    {| BuyV0Args.buyTargetAmount :=
         Some {| BuyV0Args.targetAmount := 1500000000;
                 BuyV0Args.maximumPrice := 7350001 |};
       BuyV0Args.buyWithBase := None;
       BuyV0Args.rootEstimates := Some [1500000000000; 2000000000000] |} in
  buyInstructions sampleAmountAsNum sampleCurve (sampleBonding (ofZ 0))
    (sampleMint 9) (sampleMint 6) (Some (Num (dec "1.5"))) None (dec "0.05")
  = Ok args /\
  exists bt,
    BuyV0Args.buyTargetAmount args = Some bt /\
    (inject_Z (BuyV0Args.targetAmount bt) <= Q2Qc (inject_Z 1500000000)
     < inject_Z (BuyV0Args.targetAmount bt + 1))%Q /\
    (inject_Z (BuyV0Args.maximumPrice bt - 1)
     < nearestDouble (Q2Qc (7350000000000001 # 1000000000))
     <= inject_Z (BuyV0Args.maximumPrice bt))%Q.
Proof.
  intro args.
  assert (Hrun : buyInstructions sampleAmountAsNum sampleCurve
                   (sampleBonding (ofZ 0)) (sampleMint 9) (sampleMint 6)
                   (Some (Num (dec "1.5"))) None (dec "0.05") = Ok args)
    by (vm_compute; reflexivity).
  assert (Hd : given (Some (Num (dec "1.5"))) = Some (Num (dec "1.5")))
    by (vm_compute; reflexivity).
  assert (Hq : (dec "1.5"
                * (ofZ 1
                   / (ofZ 1 - asDecimal (buyTargetRoyaltyPercentage (sampleBonding (ofZ 0)))))
                * pow10 (decimals (sampleMint 9)))%js
               = Fin (Q2Qc (inject_Z 1500000000)))
    by qc_compute.
  assert (Hm : (IPricingCurve.buyTargetAmount sampleCurve
                  (dec "1.5")
                  (buyBaseRoyaltyPercentage (sampleBonding (ofZ 0)))
                  (buyTargetRoyaltyPercentage (sampleBonding (ofZ 0)))
                * (ofZ 1 + dec "0.05") * pow10 (decimals (sampleMint 6)))%js
               = Fin (nearestDouble (Q2Qc (7350000000000001 # 1000000000))))
    by qc_compute.
  split; [exact Hrun |].
  exact (buy_amounts_bracket sampleAmountAsNum sampleCurve (sampleBonding (ofZ 0))
           (sampleMint 9) (sampleMint 6) (Some (Num (dec "1.5"))) None (dec "0.05")
           (Num (dec "1.5")) _ _ args Hd Hq Hm Hrun).
Defined.

(** X2. A buy whose needed amount comes to 2^53 raw units or more cannot be
    built: the big-number constructor rejects the number. *)
Theorem buy_fails_from_2_53
    (amountAsNum : BN -> MintInfo -> number) (curve : IPricingCurve.t)
    (acct : TokenBondingV0) (targetMint baseMint : MintInfo)
    (desired base : option NumOrBN) (slippage : number)
    (d : NumOrBN) (q : Qc) :
  given desired = Some d ->
  (neededAmount (toNumber amountAsNum d targetMint)
     (buyTargetRoyaltyPercentage acct) * pow10 (decimals targetMint))%js = Fin q ->
  (inject_Z (2 ^ 53) <= q)%Q ->
  buyInstructions amountAsNum curve acct targetMint baseMint desired base slippage
  = Err assertionFailed.
Proof.
  intros Hd Hq Hbig. unfold buyInstructions, buyByTarget. rewrite Hd, Hq.
  cbn [JS.floor]. rewrite BN_ofNumber_ofZ_large; [reflexivity |].
  apply Qfloor_resp_le in Hbig. rewrite Qfloor_Z in Hbig. lia.
Qed.

Lemma buy_fails_from_2_53_witness :
  buyInstructions sampleAmountAsNum sampleCurve (sampleBonding (ofZ 0))
    (sampleMint 9) (sampleMint 6) (Some (Num (ofZ 10000000000))) None (dec "0.05")
  = Err assertionFailed.
Proof.
  assert (Hd : given (Some (Num (ofZ 10000000000))) = Some (Num (ofZ 10000000000)))
    by (vm_compute; reflexivity).
  assert (Hq : (neededAmount
                  (toNumber sampleAmountAsNum (Num (ofZ 10000000000)) (sampleMint 9))
                  (buyTargetRoyaltyPercentage (sampleBonding (ofZ 0)))
                * pow10 (decimals (sampleMint 9)))%js
               = Fin (Q2Qc (inject_Z 10000000000000000000)))
    by qc_compute.
  assert (Hbig : (inject_Z (2 ^ 53) <= Q2Qc (inject_Z 10000000000000000000))%Q)
    by (vm_compute; discriminate).
  exact (buy_fails_from_2_53 sampleAmountAsNum sampleCurve (sampleBonding (ofZ 0))
           (sampleMint 9) (sampleMint 6) (Some (Num (ofZ 10000000000))) None
           (dec "0.05") (Num (ofZ 10000000000)) _ Hd Hq Hbig).
Defined.

(** X3. A buy in which neither amount is given (missing, 0 or NaN) is still
    built, with no amounts and no root estimates in its arguments. *)
Theorem buy_without_amounts
    (amountAsNum : BN -> MintInfo -> number) (curve : IPricingCurve.t)
    (acct : TokenBondingV0) (targetMint baseMint : MintInfo)
    (desired base : option NumOrBN) (slippage : number) :
  (desired = None \/ exists x, desired = Some (Num x) /\ JS.truthy x = false) ->
  (base = None \/ exists x, base = Some (Num x) /\ JS.truthy x = false) ->
  buyInstructions amountAsNum curve acct targetMint baseMint desired base slippage
  = Ok {| BuyV0Args.buyTargetAmount := None;
          BuyV0Args.buyWithBase := None;
          BuyV0Args.rootEstimates := None |}.
Proof.
  intros Hd Hb.
  assert (Gd : given desired = None).
  { destruct Hd as [-> | (x & -> & E)]; simpl; [reflexivity | now rewrite E]. }
  assert (Gb : given base = None).
  { destruct Hb as [-> | (x & -> & E)]; simpl; [reflexivity | now rewrite E]. }
  unfold buyInstructions, buyByTarget, buyByBase.
  rewrite Gd, Gb. reflexivity.
Qed.

Lemma buy_without_amounts_witness :
  buyInstructions sampleAmountAsNum sampleCurve (sampleBonding (ofZ 0))
    (sampleMint 9) (sampleMint 6) (Some (Num (ofZ 0))) None (dec "0.05")
  = Ok {| BuyV0Args.buyTargetAmount := None;
          BuyV0Args.buyWithBase := None;
          BuyV0Args.rootEstimates := None |}.
Proof.
  apply (buy_without_amounts sampleAmountAsNum sampleCurve (sampleBonding (ofZ 0))
           (sampleMint 9) (sampleMint 6) (Some (Num (ofZ 0))) None (dec "0.05")).
  - right. exists (ofZ 0). split; reflexivity.
  - left. reflexivity.
Defined.

(** ** Wrapped SOL *)

(** X4. When a buy is paid from a temporary wrapped SOL account, the account
    is funded with one raw unit more than the instruction may spend (its
    [maximumPrice] in a buy by target amount alone, its [baseAmount] in a buy
    with a base amount given as a number) and is asked to unwrap everything
    afterwards. *)
Theorem wrapped_sol_covers_the_buy
    (amountAsNum : BN -> MintInfo -> number) (curve : IPricingCurve.t)
    (acct : TokenBondingV0) (targetMint baseMint : MintInfo)
    (desired base : option NumOrBN) (slippage : number)
    (args : BuyV0Args.t) :
  buyInstructions amountAsNum curve acct targetMint baseMint desired base slippage
  = Ok args ->
  (forall bt, given base = None ->
     BuyV0Args.buyTargetAmount args = Some bt ->
     exists w,
       WrappedSol.buyFunding amountAsNum curve acct targetMint baseMint desired
         base slippage = Ok w /\
       WrappedSol.buyAmount w = BuyV0Args.maximumPrice bt + 1 /\
       WrappedSol.sellAmount w = BuyV0Args.maximumPrice bt /\
       WrappedSol.sellAll w = true) /\
  (forall x bb, given base = Some (Num x) ->
     BuyV0Args.buyWithBase args = Some bb ->
     exists w,
       WrappedSol.buyFunding amountAsNum curve acct targetMint baseMint desired
         base slippage = Ok w /\
       WrappedSol.buyAmount w = BuyV0Args.baseAmount bb + 1 /\
       WrappedSol.sellAmount w = BuyV0Args.baseAmount bb /\
       WrappedSol.sellAll w = true).
Proof.
  intro H. apply buyInstructions_locals in H.
  destruct H as (l1 & l2 & H1 & H2 & Ht & Hb).
  unfold WrappedSol.buyFunding. rewrite H1. cbn [bind]. rewrite H2. cbn [bind].
  split.
  - intros bt Hg Hbt. unfold buyByBase in H2. rewrite Hg in H2.
    injection H2 as <-. rewrite Hbt in Ht.
    unfold buyByTarget in H1. destruct (given desired) as [d |].
    + apply bind_Ok in H1. destruct H1 as (ta & Hta & H1).
      apply bind_Ok in H1. destruct H1 as (mp & Hmp & H1).
      injection H1 as <-. cbn [l_buyTargetAmount l_maxPrice] in *.
      injection Ht as ->. cbn [BuyV0Args.maximumPrice].
      unfold WrappedSol.createTemporaryWSolAccount.
      match goal with
      | |- context [toBN ?a ?b] =>
          replace (toBN a b) with (Ok mp) by (symmetry; exact Hmp)
      end. cbn [bind].
      eexists. split; [reflexivity |]. cbn. auto.
    + injection H1 as <-. discriminate.
  - intros x bb Hg Hbb. unfold buyByBase in H2. rewrite Hg in H2.
    apply bind_Ok in H2. destruct H2 as (ba & Hba & H2).
    apply bind_Ok in H2. destruct H2 as (mt & Hmt & H2).
    injection H2 as <-. cbn [l_buyWithBase l_maxPrice] in *.
    rewrite Hbb in Hb. injection Hb as ->. cbn [BuyV0Args.baseAmount].
    unfold WrappedSol.createTemporaryWSolAccount.
    match goal with
    | |- context [toBN ?a ?b] =>
        replace (toBN a b) with (Ok ba) by (symmetry; exact Hba)
    end. cbn [bind].
    eexists. split; [reflexivity |]. cbn. auto.
Qed.

Lemma wrapped_sol_covers_the_buy_witness :
  WrappedSol.buyFunding sampleAmountAsNum sampleCurve (sampleBonding (ofZ 0))
    (sampleMint 9) (sampleMint 6) (Some (Num (dec "1.5"))) None (dec "0.05")
  = Ok {| WrappedSol.buyAmount := 7350002;
          WrappedSol.sellAll := true;
          WrappedSol.sellAmount := 7350001 |}.
Proof.
  pose (bt := {| BuyV0Args.targetAmount := 1500000000;
                 BuyV0Args.maximumPrice := 7350001 |}).
  pose (args := {| BuyV0Args.buyTargetAmount := Some bt;
                   BuyV0Args.buyWithBase := None;
                   BuyV0Args.rootEstimates := Some [1500000000000; 2000000000000] |}).
  assert (Hrun : buyInstructions sampleAmountAsNum sampleCurve
                   (sampleBonding (ofZ 0)) (sampleMint 9) (sampleMint 6)
                   (Some (Num (dec "1.5"))) None (dec "0.05") = Ok args)
    by (vm_compute; reflexivity).
  destruct (proj1 (wrapped_sol_covers_the_buy sampleAmountAsNum sampleCurve
                     (sampleBonding (ofZ 0)) (sampleMint 9) (sampleMint 6)
                     (Some (Num (dec "1.5"))) None (dec "0.05") args Hrun)
              bt eq_refl eq_refl) as (w & Hw & Hbuy & Hsell & Hall).
  rewrite Hw. destruct w as [b a s]. cbn in Hbuy, Hsell, Hall. now subst.
Defined.

(** ** The sell builder *)

(** X5. A sale fails with the error "Sell is frozen on this bonding curve"
    exactly when the curve's [sellFrozen] flag is set: no other failure of the
    builder carries that message. *)
Theorem sell_frozen_iff
    (amountAsNum : BN -> MintInfo -> number) (curve : IPricingCurve.t)
    (acct : TokenBondingV0) (targetMint baseMint : MintInfo)
    (targetAmount : NumOrBN) (slippage : number) :
  sellInstructions amountAsNum curve acct targetMint baseMint targetAmount slippage
  = Err sellFrozenError
  <-> sellFrozen acct = true.
Proof.
  unfold sellInstructions, sellFrozenError. split.
  - destruct (sellFrozen acct); [reflexivity |]. intro H. exfalso.
    destruct (toBN targetAmount targetMint) as [ta | e] eqn:Eta; simpl in H.
    + destruct (BN_ofNumber _) as [mp | e] eqn:Emp; simpl in H.
      * destruct (mapM toU128 _) as [es | e] eqn:Ees; simpl in H; [discriminate |].
        injection H as ->. apply mapM_toU128_errors in Ees.
        destruct Ees; discriminate.
      * injection H as ->. apply BN_ofNumber_errors in Emp. discriminate.
    + injection H as ->. destruct targetAmount as [x | b]; simpl in Eta.
      * apply BN_ofNumber_errors in Eta. discriminate.
      * discriminate.
  - intros ->. reflexivity.
Qed.

(** X6. The arguments of a sale that is built: sales are not frozen; the
    target amount is a [BN] as it was given, or a number scaled (as doubles
    multiply) by ten to the target mint's decimals and rounded up; the minimum
    price is the curve's proceeds times [1 - slippage], scaled by ten to the
    base mint's decimals and rounded up; and the root estimates are those of
    [buyTargetAmountRootEstimates] at the amount sold and the sell target
    royalty, in order, each as [toU128] makes it. *)
Theorem sell_arguments
    (amountAsNum : BN -> MintInfo -> number) (curve : IPricingCurve.t)
    (acct : TokenBondingV0) (targetMint baseMint : MintInfo)
    (targetAmount : NumOrBN) (slippage : number) (args : SellV0Args.t) :
  sellInstructions amountAsNum curve acct targetMint baseMint targetAmount slippage
  = Ok args ->
  let targetAmountNum :=
    match targetAmount with
    | Num x => x
    | Big b => amountAsNum b targetMint
    end in
  sellFrozen acct = false /\
  match targetAmount with
  | Big b => SellV0Args.targetAmount args = b
  | Num x =>
      BN_ofNumber (JS.ceil (x * pow10 (decimals targetMint))%js)
      = Ok (SellV0Args.targetAmount args)
  end /\
  BN_ofNumber
    (JS.ceil (IPricingCurve.sellTargetAmount curve targetAmountNum
                (sellBaseRoyaltyPercentage acct) (sellTargetRoyaltyPercentage acct)
              * (ofZ 1 - slippage) * pow10 (decimals baseMint))%js)
  = Ok (SellV0Args.minimumPrice args) /\
  Forall2 encodes
    (IPricingCurve.buyTargetAmountRootEstimates curve targetAmountNum
       (sellTargetRoyaltyPercentage acct))
    (SellV0Args.rootEstimates args).
Proof.
  intros H targetAmountNum. unfold sellInstructions in H.
  destruct (sellFrozen acct); [discriminate |].
  replace (toNumber amountAsNum targetAmount targetMint) with targetAmountNum in H
    by (destruct targetAmount; reflexivity).
  cbv zeta in H.
  apply bind_Ok in H. destruct H as (ta & Hta & H).
  apply bind_Ok in H. destruct H as (mp & Hmp & H).
  apply bind_Ok in H. destruct H as (es & Hes & H).
  injection H as <-.
  cbn [SellV0Args.targetAmount SellV0Args.minimumPrice SellV0Args.rootEstimates].
  split; [reflexivity |]. split; [| split].
  - destruct targetAmount as [x | b]; cbn [toBN] in Hta; [exact Hta |].
    now injection Hta as <-.
  - exact Hmp.
  - now apply Forall2_encodes.
Qed.

Lemma sell_arguments_witness :
  let args :=
    {| SellV0Args.targetAmount := 8300001;
       SellV0Args.minimumPrice := 1900000;
       SellV0Args.rootEstimates := [1500000000000; 2000000000000] |} in
  sellInstructions sampleAmountAsNum sampleCurve (sampleBonding (ofZ 0))
    (sampleMint 6) (sampleMint 6) (Num (dec "8.3")) (dec "0.05") = Ok args /\
  BN_ofNumber (JS.ceil (dec "8.3" * pow10 6)%js) = Ok (SellV0Args.targetAmount args) /\
  Forall2 encodes [dec "1.5"; ofZ 2] (SellV0Args.rootEstimates args).
Proof.
  intro args.
  assert (Hrun : sellInstructions sampleAmountAsNum sampleCurve
                   (sampleBonding (ofZ 0)) (sampleMint 6) (sampleMint 6)
                   (Num (dec "8.3")) (dec "0.05") = Ok args)
    by (vm_compute; reflexivity).
  split; [exact Hrun |].
  pose proof (sell_arguments sampleAmountAsNum sampleCurve (sampleBonding (ofZ 0))
                (sampleMint 6) (sampleMint 6) (Num (dec "8.3")) (dec "0.05") args
                Hrun) as (_ & Hta & _ & Hes).
  split; [exact Hta | exact Hes].
Defined.

(** ** Time-composite curves *)

Section TimeCurveMore.

Context {P : Type}.

Lemma addCurves_extends (calls : list (number * P)) :
  forall (this cfg : TimeCurveConfig.t P),
  TimeCurveConfig.addCurves this calls = Ok cfg ->
  exists added,
    TimeCurveConfig.curves cfg = TimeCurveConfig.curves this ++ added /\
    map TimeCurveConfig.curve added = map snd calls /\
    Forall2 (fun call e => BN_ofNumber (fst call) = Ok (TimeCurveConfig.offset e))
      calls added.
Proof.
  induction calls as [| [t c] calls IH]; intros this cfg H.
  - injection H as <-. exists []. rewrite app_nil_r. repeat split. constructor.
  - cbn [TimeCurveConfig.addCurves] in H.
    apply bind_Ok in H. destruct H as (this' & Hadd & H).
    unfold TimeCurveConfig.addCurve in Hadd.
    destruct (_ && _); [discriminate |].
    apply bind_Ok in Hadd. destruct Hadd as (o & Ho & Hadd). injection Hadd as <-.
    destruct (IH _ _ H) as (added & Hc & Hm & Hf).
    cbn [TimeCurveConfig.curves] in Hc.
    exists ({| TimeCurveConfig.curve := c; TimeCurveConfig.offset := o |} :: added).
    split; [now rewrite Hc, <- app_assoc |]. split.
    + cbn [map TimeCurveConfig.curve snd]. now rewrite Hm.
    + constructor; [exact Ho | exact Hf].
Qed.

End TimeCurveMore.

(** X8. A time-composite curve that is built holds one entry per [addCurve]
    call, in call order; each entry keeps the curve it was given and the
    offset that [new BN] makes of its time offset (the integer part, 0 for
    NaN), and the first offset is 0. *)
Theorem time_curve_keeps_calls_in_order
    (P : Type) (calls : list (number * P)) (cfg : TimeCurveConfig.t P) :
  TimeCurveConfig.addCurves TimeCurveConfig.empty calls = Ok cfg ->
  map TimeCurveConfig.curve (TimeCurveConfig.curves cfg) = map snd calls /\
  Forall2 (fun call e => BN_ofNumber (fst call) = Ok (TimeCurveConfig.offset e))
    calls (TimeCurveConfig.curves cfg) /\
  match TimeCurveConfig.curves cfg with
  | e :: _ => TimeCurveConfig.offset e = 0
  | [] => calls = []
  end.
Proof.
  intro H. destruct (addCurves_extends calls _ _ H) as (added & Hc & Hm & Hf).
  cbn [TimeCurveConfig.empty TimeCurveConfig.curves app] in Hc. rewrite Hc.
  split; [exact Hm |]. split; [exact Hf |].
  destruct calls as [| [t c] calls].
  - inversion Hf. reflexivity.
  - inversion Hf as [| ? e ? added' Ho Hrest]; subst.
    cbn [TimeCurveConfig.addCurves] in H. unfold TimeCurveConfig.addCurve in H.
    cbn [TimeCurveConfig.empty TimeCurveConfig.curves List.length Nat.eqb andb] in H.
    destruct (JS.nonZero t) eqn:E; [discriminate |].
    apply nonZero_false in E. subst t. cbn [fst] in Ho.
    apply BN_ofNumber_ofZ_inv in Ho. destruct Ho as [Ho _]. now symmetry.
Qed.

Lemma time_curve_keeps_calls_in_order_witness :
  let calls := [(ofZ 0, sampleExponential); (dec "100.5", sampleExponential)] in
  let cfg :=
    {| TimeCurveConfig.curves :=
         [ {| TimeCurveConfig.curve := sampleExponential;
              TimeCurveConfig.offset := 0 |};
           {| TimeCurveConfig.curve := sampleExponential;
              TimeCurveConfig.offset := 100 |} ] |} in
  TimeCurveConfig.addCurves TimeCurveConfig.empty calls = Ok cfg /\
  map TimeCurveConfig.curve (TimeCurveConfig.curves cfg) = map snd calls.
Proof.
  intros calls cfg.
  assert (Hrun : TimeCurveConfig.addCurves TimeCurveConfig.empty calls = Ok cfg)
    by (vm_compute; reflexivity).
  split; [exact Hrun |].
  exact (proj1 (time_curve_keeps_calls_in_order _ calls cfg Hrun)).
Defined.

(** X9. A time-composite curve made of one exponential curve at offset 0 has
    the raw configuration that the exponential curve gives for itself. *)
Theorem single_curve_same_raw_config (e : ExponentialCurveConfig.t) :
  exists cfg,
    TimeCurveConfig.addCurve TimeCurveConfig.empty (ofZ 0) e = Ok cfg /\
    toRawConfig cfg = toRawConfig e.
Proof. eexists. split; reflexivity. Qed.

(** ** Fixed-point encoding of printed numbers *)

(** X10. A number that prints in plain decimal notation with a fraction is
    encoded as its printed value times 10^12, rounded down: the fractional
    digits after the twelfth are cut, not rounded. *)
Theorem toU128_plain_is_truncation (x : number) (ip fp : str) :
  ip <> [] -> allDigits ip -> allDigits fp ->
  toString x = ip ++ lit "." ++ fp ->
  toU128 (Num x) = Ok (Qfloor (printedValue ip fp * inject_Z (10 ^ 12))).
Proof.
  intros Hne Hi Hf Hs. rewrite (toU128_plain_notation x ip fp Hne Hi Hf Hs).
  unfold printedValue. rewrite Qfloor_div_mul; [reflexivity |].
  apply Z.pow_pos_nonneg; lia.
Qed.

Lemma toU128_plain_is_truncation_witness :
  toU128 (Num (dec "12.3456789012349")) = Ok 12345678901234.
Proof.
  assert (Hs : toString (dec "12.3456789012349")
               = lit "12" ++ lit "." ++ lit "3456789012349")
    by (vm_compute; reflexivity).
  rewrite (toU128_plain_is_truncation _ (lit "12") (lit "3456789012349"));
    [ vm_compute; reflexivity | discriminate | reflexivity | reflexivity | exact Hs ].
Defined.

(** ** Creating a bonding curve *)

(** X11. The checks at the head of [createTokenBondingInstructions] pass
    exactly when a target mint is given, or when none is given, no target
    royalty account is given either and the decimals of the mint to create
    are given and are not 0 (nor NaN): a new mint of 0 decimals is turned
    down. *)
Theorem checkTargetMint_passes
    (targetMint sellTargetRoyalties buyTargetRoyalties : option PublicKey)
    (targetMintDecimals : option number) :
  checkTargetMint targetMint sellTargetRoyalties buyTargetRoyalties
    targetMintDecimals = Ok tt
  <-> (exists k, targetMint = Some k) \/
      (sellTargetRoyalties = None /\ buyTargetRoyalties = None /\
       exists d, targetMintDecimals = Some d /\ JS.truthy d = true).
Proof.
  unfold checkTargetMint. split.
  - destruct targetMint as [k |]; [eauto |].
    destruct sellTargetRoyalties, buyTargetRoyalties; simpl; try discriminate.
    destruct targetMintDecimals as [d |]; [| discriminate].
    destruct (JS.truthy d) eqn:E; [| discriminate]. eauto 8.
  - intros [(k & ->) | (-> & -> & d & -> & E)]; [reflexivity |].
    destruct targetMint; [reflexivity |]. simpl. now rewrite E.
Qed.

Lemma findFreeIndex_sound (fuel : nat) (taken : Z -> bool) (i j : Z) :
  findFreeIndex fuel taken i = Some j ->
  i <= j /\ taken j = false /\ forall k, i <= k < j -> taken k = true.
Proof.
  revert i. induction fuel as [| fuel IH]; intros i H; [discriminate |].
  cbn [findFreeIndex] in H. destruct (taken i) eqn:E.
  - destruct (IH _ H) as (Hle & Hj & Hk). split; [lia |]. split; [exact Hj |].
    intros k Hr. destruct (Z.eq_dec k i) as [-> | Hne]; [exact E |].
    apply Hk. lia.
  - injection H as <-. split; [lia |]. split; [exact E |]. intros k Hr. lia.
Qed.

Lemma findFreeIndex_finds (fuel : nat) (taken : Z -> bool) (i n : Z) :
  taken n = false -> i <= n -> n - i < Z.of_nat fuel ->
  exists j, findFreeIndex fuel taken i = Some j.
Proof.
  revert i. induction fuel as [| fuel IH]; intros i Hn Hle Hf; [lia |].
  cbn [findFreeIndex]. destruct (taken i) eqn:E; [| eauto].
  assert (i <> n) by congruence. apply IH; [exact Hn | lia | lia].
Qed.

(** X12. With no index asked for (missing, 0 or NaN) and some index free,
    the bonding index chosen is the least one that is not taken, found after
    looking at every index below it. *)
Theorem bondingIndex_first_free
    (fuel : nat) (taken : Z -> bool) (index : option number) (n : Z) :
  (index = None \/ exists i, index = Some i /\ JS.truthy i = false) ->
  0 <= n -> taken n = false -> n < Z.of_nat fuel ->
  exists j,
    bondingIndex fuel taken index = Some (ofZ j) /\
    0 <= j <= n /\ taken j = false /\ forall k, 0 <= k < j -> taken k = true.
Proof.
  intros Hi Hn Ht Hf.
  assert (Hb : bondingIndex fuel taken index
               = option_map ofZ (findFreeIndex fuel taken 0)).
  { unfold bondingIndex. destruct Hi as [-> | (i & -> & E)]; [reflexivity |].
    now rewrite E. }
  destruct (findFreeIndex_finds fuel taken 0 n Ht Hn ltac:(lia)) as (j & Hj).
  destruct (findFreeIndex_sound _ _ _ _ Hj) as (H0 & Hfree & Hall).
  exists j. rewrite Hb, Hj. split; [reflexivity |].
  split; [| split; assumption].
  split; [exact H0 |].
  destruct (Z.le_gt_cases j n) as [Hle | Hgt]; [exact Hle |].
  rewrite (Hall n) in Ht by lia. discriminate.
Qed.

Lemma bondingIndex_first_free_witness :
  exists j,
    bondingIndex 10 (fun k => k <? 2) (Some (ofZ 0)) = Some (ofZ j) /\
    0 <= j <= 5 /\ (j <? 2) = false /\ forall k, 0 <= k < j -> (k <? 2) = true.
Proof.
  apply (bondingIndex_first_free 10 (fun k => k <? 2) (Some (ofZ 0)) 5).
  - right. exists (ofZ 0). split; reflexivity.
  - lia.
  - reflexivity.
  - simpl. lia.
Defined.

(** ** Updating a bonding curve *)

Lemma orNumber_keeps_truthy (a : option number) (b : number) :
  JS.truthy b = true -> JS.truthy (orNumber a b) = true.
Proof.
  intro H. unfold orNumber. destruct a as [x |]; [| exact H].
  destruct (JS.truthy x) eqn:E; [exact E | exact H].
Qed.

Lemma orNumber_falsy (a : option number) (b : number) :
  (a = None \/ exists x, a = Some x /\ JS.truthy x = false) -> orNumber a b = b.
Proof.
  intros [-> | (x & -> & E)]; [reflexivity |]. unfold orNumber. now rewrite E.
Qed.

(** X13. An update never clears a royalty: whatever is asked for and whatever
    [percent] makes of it, each royalty percentage that is not 0 on the
    account is not 0 in the arguments of the update either. *)
Theorem update_keeps_royalties_nonzero
    (percent : option number -> option number)
    (acct : UpdateTokenBonding.Account) (req : UpdateTokenBonding.Request)
    (args : UpdateTokenBonding.UpdateTokenBondingV0Args) :
  UpdateTokenBonding.updateTokenBondingInstructions percent acct req = Ok args ->
  (JS.truthy (buyBaseRoyaltyPercentage (UpdateTokenBonding.royalties acct)) = true ->
   JS.truthy (UpdateTokenBonding.a_buyBaseRoyaltyPercentage args) = true) /\
  (JS.truthy (buyTargetRoyaltyPercentage (UpdateTokenBonding.royalties acct)) = true ->
   JS.truthy (UpdateTokenBonding.a_buyTargetRoyaltyPercentage args) = true) /\
  (JS.truthy (sellBaseRoyaltyPercentage (UpdateTokenBonding.royalties acct)) = true ->
   JS.truthy (UpdateTokenBonding.a_sellBaseRoyaltyPercentage args) = true) /\
  (JS.truthy (sellTargetRoyaltyPercentage (UpdateTokenBonding.royalties acct)) = true ->
   JS.truthy (UpdateTokenBonding.a_sellTargetRoyaltyPercentage args) = true).
Proof.
  unfold UpdateTokenBonding.updateTokenBondingInstructions.
  destruct (UpdateTokenBonding.authority acct); [| discriminate].
  intro H. injection H as <-. cbn.
  repeat split; apply orNumber_keeps_truthy.
Qed.

Lemma update_keeps_royalties_nonzero_witness :
  let acct :=
    {| UpdateTokenBonding.royalties := sampleBonding (ofZ 42949672);
       UpdateTokenBonding.authority := Some "authority"%string;
       UpdateTokenBonding.buyFrozen := false |} in
  let req :=
    {| UpdateTokenBonding.r_buyBaseRoyaltyPercentage := None;
       UpdateTokenBonding.r_buyTargetRoyaltyPercentage := Some (ofZ 0);
       UpdateTokenBonding.r_sellBaseRoyaltyPercentage := None;
       UpdateTokenBonding.r_sellTargetRoyaltyPercentage := None;
       UpdateTokenBonding.r_authority := Undefined;
       UpdateTokenBonding.r_buyFrozen := None |} in
  let args :=
    {| UpdateTokenBonding.a_buyBaseRoyaltyPercentage := ofZ 0;
       UpdateTokenBonding.a_buyTargetRoyaltyPercentage := ofZ 42949672;
       UpdateTokenBonding.a_sellBaseRoyaltyPercentage := ofZ 0;
       UpdateTokenBonding.a_sellTargetRoyaltyPercentage := ofZ 0;
       UpdateTokenBonding.a_tokenBondingAuthority := Some "authority"%string;
       UpdateTokenBonding.a_buyFrozen := false |} in
  UpdateTokenBonding.updateTokenBondingInstructions (fun p => p) acct req = Ok args /\
  (JS.truthy (buyTargetRoyaltyPercentage (UpdateTokenBonding.royalties acct)) = true ->
   JS.truthy (UpdateTokenBonding.a_buyTargetRoyaltyPercentage args) = true).
Proof.
  intros acct req args.
  assert (Hrun : UpdateTokenBonding.updateTokenBondingInstructions (fun p => p)
                   acct req = Ok args)
    by (vm_compute; reflexivity).
  split; [exact Hrun |].
  exact (proj1 (proj2 (update_keeps_royalties_nonzero (fun p => p) acct req args Hrun))).
Defined.

(** X14. In the earlier SDK an update that asks for a royalty of 0, like one
    that asks for none, leaves the royalty percentages of the account as they
    are. *)
Theorem legacy_update_ignores_zero
    (acct : LegacyUpdate.Account) (base' target' : option number)
    (authority' : Nullable PublicKey) (buyFrozen' : option bool)
    (current : PublicKey) :
  LegacyUpdate.authority acct = Some current ->
  (base' = None \/ base' = Some (ofZ 0)) ->
  (target' = None \/ target' = Some (ofZ 0)) ->
  exists args,
    LegacyUpdate.updateTokenBondingInstructions acct base' target' authority'
      buyFrozen' = Ok args /\
    LegacyUpdate.a_baseRoyaltyPercentage args = LegacyUpdate.baseRoyaltyPercentage acct /\
    LegacyUpdate.a_targetRoyaltyPercentage args
    = LegacyUpdate.targetRoyaltyPercentage acct.
Proof.
  intros Ha Hb Ht. unfold LegacyUpdate.updateTokenBondingInstructions.
  rewrite Ha. eexists. split; [reflexivity |]. cbn.
  split; apply orNumber_falsy.
  - destruct Hb as [-> | ->]; [now left | right; eexists; split; reflexivity].
  - destruct Ht as [-> | ->]; [now left | right; eexists; split; reflexivity].
Qed.

Lemma legacy_update_ignores_zero_witness :
  let acct :=
    {| LegacyUpdate.baseRoyaltyPercentage := ofZ 42949672;
       LegacyUpdate.targetRoyaltyPercentage := ofZ 85899345;
       LegacyUpdate.authority := Some "authority"%string;
       LegacyUpdate.buyFrozen := false |} in
  exists args,
    LegacyUpdate.updateTokenBondingInstructions acct (Some (ofZ 0)) None Undefined
      None = Ok args /\
    LegacyUpdate.a_baseRoyaltyPercentage args = ofZ 42949672 /\
    LegacyUpdate.a_targetRoyaltyPercentage args = ofZ 85899345.
Proof.
  intro acct.
  apply (legacy_update_ignores_zero acct (Some (ofZ 0)) None Undefined None
           "authority"%string).
  - reflexivity.
  - right. reflexivity.
  - left. reflexivity.
Defined.

(** ** Program errors *)

Lemma find_append {A : Type} (p : A -> bool) (a b : list A) :
  find p (a ++ b) = match find p a with Some x => Some x | None => find p b end.
Proof.
  induction a as [| x a IH]; [reflexivity |]. cbn [app find].
  destruct (p x); [reflexivity | exact IH].
Qed.

Lemma errors_fold (l : list IdlError) (m : ErrorMap) (k : Z) :
  fold_left
    (fun acc err => mapSet acc (code err) (name err ++ lit ": " ++ msg err)) l m k
  = match find (fun e => code e =? k) (rev l) with
    | Some e => Some (name e ++ lit ": " ++ msg e)
    | None => m k
    end.
Proof.
  revert m. induction l as [| e l IH]; intro m; [reflexivity |].
  cbn [fold_left rev]. rewrite IH, find_append.
  destruct (find (fun e0 => code e0 =? k) (rev l)); [reflexivity |].
  cbn [find]. unfold mapSet. rewrite (Z.eqb_sym (code e) k).
  destruct (k =? code e); reflexivity.
Qed.

(** X15. The error map answers a code with the name and message of the last
    entry of the IDL's error list that has this code, and with nothing for a
    code that no entry has. *)
Theorem errors_last_entry_wins (idlErrors : list IdlError) (k : Z) :
  errors idlErrors k
  = option_map (fun e => name e ++ lit ": " ++ msg e)
      (find (fun e => code e =? k) (rev idlErrors)).
Proof.
  unfold errors. rewrite errors_fold.
  destruct (find _ _); reflexivity.
Qed.

(** ** The swap form *)

Lemma ge_refl (x : number) : JS.isNaN x = false -> Compare.ge x x = true.
Proof.
  destruct x as [| s | q]; simpl; intro H; try discriminate.
  - destruct s; reflexivity.
  - apply Qle_bool_iff. apply Qle_refl.
Qed.

Lemma gt_irrefl (x : number) : Compare.gt x x = false.
Proof.
  destruct x as [| s | q]; simpl; try reflexivity.
  - destruct s; reflexivity.
  - apply negb_false_iff. apply Qle_bool_iff. apply Qle_refl.
Qed.

Lemma gt_ge (x y : number) : Compare.gt x y = true -> Compare.ge x y = true.
Proof.
  destruct x as [| s | p], y as [| t | q]; simpl; try discriminate; auto.
  - destruct s, t; simpl; auto.
  - intro H. apply negb_true_iff in H. apply Qle_bool_iff.
    apply Qlt_le_weak. apply Qnot_le_lt. intro C.
    apply Qle_bool_iff in C. congruence.
Qed.

Lemma ge_not_gt_eq (x y : number) :
  Compare.ge x y = true -> Compare.gt x y = false -> x = y.
Proof.
  destruct x as [| s | p], y as [| t | q]; simpl; try discriminate.
  - destruct s, t; simpl; try discriminate; reflexivity.
  - destruct s; simpl; discriminate.
  - destruct t; simpl; discriminate.
  - intros H1 H2. apply negb_false_iff in H2.
    apply Qle_bool_iff in H1, H2. f_equal. apply Qcle_antisym; assumption.
Qed.

Lemma entered_value (v : number) :
  JS.isNaN v = false -> SwapForm.entered (Some v) = v.
Proof.
  destruct v as [| s | q]; simpl; intro H; try discriminate; try reflexivity.
  destruct (sgn q) eqn:E; try reflexivity.
  unfold ofZ. f_equal. symmetry. now apply sgn_Eq.
Qed.

(** X16. The amount that Use Max puts in the form can always be traded: for
    a connected wallet, and a balance and a spend cap that are numbers, the
    trade button is enabled once the form holds that amount. *)
Theorem use_max_enables_trade (ownedBase spendCap : number) :
  JS.isNaN ownedBase = false -> JS.isNaN spendCap = false ->
  SwapForm.tradeDisabled true ownedBase spendCap
    (Some (SwapForm.handleUseMax ownedBase spendCap)) = false.
Proof.
  intros Ho Hs. unfold SwapForm.tradeDisabled, SwapForm.hasBaseAmount,
    SwapForm.moreThanSpendCap, SwapForm.handleUseMax.
  destruct (Compare.ge ownedBase spendCap) eqn:E.
  - rewrite (entered_value _ Hs), E, gt_irrefl. reflexivity.
  - rewrite (entered_value _ Ho), (ge_refl _ Ho).
    destruct (Compare.gt ownedBase spendCap) eqn:G; [| reflexivity].
    apply gt_ge in G. congruence.
Qed.

Lemma use_max_enables_trade_witness :
  SwapForm.tradeDisabled true (ofZ 5) (ofZ 3)
    (Some (SwapForm.handleUseMax (ofZ 5) (ofZ 3))) = false.
Proof.
  apply (use_max_enables_trade (ofZ 5) (ofZ 3)); reflexivity.
Defined.

(** X17. The amount shown on the Use Max button is the amount the button
    puts in the form, although the one is chosen with [>] and the other with
    [>=]; this holds for NaN and the infinities too. *)
Theorem use_max_label_is_amount (ownedBase spendCap : number) :
  SwapForm.useMaxLabel ownedBase spendCap = SwapForm.handleUseMax ownedBase spendCap.
Proof.
  unfold SwapForm.useMaxLabel, SwapForm.handleUseMax.
  destruct (Compare.gt ownedBase spendCap) eqn:G.
  - now rewrite (gt_ge _ _ G).
  - destruct (Compare.ge ownedBase spendCap) eqn:E; [| reflexivity].
    now apply ge_not_gt_eq.
Qed.

(** ** Root estimates and curve parameters *)

(** X18. The arguments of a buy carry the whole sequence of root estimates
    of the solver, in order: those of [buyWithBaseRootEstimates] at the base
    amount when a base amount is given, otherwise those of
    [buyTargetAmountRootEstimates] at the desired amount.  Each is carried as
    [toU128] makes it, which for an estimate printed in plain notation is the
    printed value times 10^12, rounded down. *)
Theorem buy_carries_root_estimates
    (amountAsNum : BN -> MintInfo -> number) (curve : IPricingCurve.t)
    (acct : TokenBondingV0) (targetMint baseMint : MintInfo)
    (desired base : option NumOrBN) (slippage : number) (args : BuyV0Args.t) :
  buyInstructions amountAsNum curve acct targetMint baseMint desired base slippage
  = Ok args ->
  match given base, given desired with
  | Some bs, _ =>
      exists us,
        BuyV0Args.rootEstimates args = Some us /\
        Forall2 encodes
          (IPricingCurve.buyWithBaseRootEstimates curve
             match bs with
             | Num x => x
             | Big b => amountAsNum b baseMint
             end
             (buyBaseRoyaltyPercentage acct))
          us
  | None, Some d =>
      exists us,
        BuyV0Args.rootEstimates args = Some us /\
        Forall2 encodes
          (IPricingCurve.buyTargetAmountRootEstimates curve
             match d with
             | Num x => x
             | Big b => amountAsNum b targetMint
             end
             (buyTargetRoyaltyPercentage acct))
          us
  | None, None => BuyV0Args.rootEstimates args = None
  end.
Proof.
  intro H. apply buyInstructions_Ok in H.
  destruct H as (l1 & l2 & H1 & H2 & _ & Hes).
  destruct (given base) as [bs |] eqn:Gb.
  - rewrite (buyByBase_given _ _ _ _ _ _ _ _ _ _ Gb H2) in Hes.
    cbn [mapEstimates] in Hes. apply bind_Ok in Hes.
    destruct Hes as (us & Hus & Hes). injection Hes as Hes.
    exists us. split; [now symmetry |].
    replace (match bs with Num x => x | Big b => amountAsNum b baseMint end)
      with (toNumber amountAsNum bs baseMint) by (destruct bs; reflexivity).
    now apply Forall2_encodes.
  - rewrite (buyByBase_absent _ _ _ _ _ _ _ _ Gb) in H2. injection H2 as <-.
    destruct (given desired) as [d |] eqn:Gd.
    + destruct (buyByTarget_given _ _ _ _ _ _ _ _ _ _ Gd H1) as (_ & _ & _ & Hr).
      rewrite Hr in Hes. cbn [mapEstimates] in Hes. apply bind_Ok in Hes.
      destruct Hes as (us & Hus & Hes). injection Hes as Hes.
      exists us. split; [now symmetry |].
      replace (match d with Num x => x | Big b => amountAsNum b targetMint end)
        with (toNumber amountAsNum d targetMint) by (destruct d; reflexivity).
      now apply Forall2_encodes.
    + rewrite (buyByTarget_absent _ _ _ _ _ _ _ _ Gd) in H1. injection H1 as <-.
      cbn in Hes. now injection Hes as <-.
Qed.

Lemma buy_carries_root_estimates_witness :
  let args :=
    {| BuyV0Args.buyTargetAmount := None;
       BuyV0Args.buyWithBase :=
         Some {| BuyV0Args.baseAmount := 2000000;
                 BuyV0Args.minimumTargetAmount := 2850000000 |};
       BuyV0Args.rootEstimates :=
         Some [250000000000; 4000000000000; 9000000000000] |} in
  buyInstructions sampleAmountAsNum sampleCurve (sampleBonding (ofZ 0))
    (sampleMint 9) (sampleMint 6) None (Some (Num (ofZ 2))) (dec "0.05")
  = Ok args /\
  exists us,
    BuyV0Args.rootEstimates args = Some us /\
    Forall2 encodes [dec "0.25"; ofZ 4; ofZ 9] us.
Proof.
  intro args.
  assert (Hrun : buyInstructions sampleAmountAsNum sampleCurve
                   (sampleBonding (ofZ 0)) (sampleMint 9) (sampleMint 6)
                   None (Some (Num (ofZ 2))) (dec "0.05") = Ok args)
    by (vm_compute; reflexivity).
  split; [exact Hrun |].
  exact (buy_carries_root_estimates sampleAmountAsNum sampleCurve
           (sampleBonding (ofZ 0)) (sampleMint 9) (sampleMint 6)
           None (Some (Num (ofZ 2))) (dec "0.05") args Hrun).
Defined.

(** X19. The raw configuration of an exponential curve built by the
    constructor is a time-composite definition with exactly one entry, at
    offset 0, whose curve is the exponential primitive with fields [c], [b],
    [pow], [frac].  A [BN] given for [c] or [b] is kept; a number is carried as
    [toU128] makes it, which for a number printed in plain notation is the
    printed value times 10^12, rounded down; the defaults are 1 and 0.  [pow]
    and [frac] are the arguments themselves (1 when missing). *)
Theorem exponential_toRawConfig
    (c b : option NumOrBN) (pow frac : option number)
    (cfg : ExponentialCurveConfig.t) :
  ExponentialCurveConfig.new c b pow frac = Ok cfg ->
  let encoded (given' : option NumOrBN) (missing : number) (u : BN) : Prop :=
    match given' with
    | Some (Big v) => u = v
    | Some (Num x) => encodes x u
    | None => encodes missing u
    end in
  exists c' b',
    encoded c (ofZ 1) c' /\
    encoded b (ofZ 0) b' /\
    toRawConfig cfg
    = {| Raw.definition :=
           Raw.timeV0
             {| Raw.curves :=
                  [ {| Raw.offset := 0;
                       Raw.curve :=
                         Raw.exponentialCurveV0
                           {| Raw.c := c';
                              Raw.b := b';
                              Raw.pow := match pow with Some x => x | None => ofZ 1 end;
                              Raw.frac := match frac with Some x => x | None => ofZ 1 end
                           |} |} ] |} |}.
Proof.
  intros H encoded. unfold ExponentialCurveConfig.new in H.
  apply bind_Ok in H. destruct H as (c' & Hc & H).
  apply bind_Ok in H. destruct H as (b' & Hb & H).
  injection H as <-. exists c', b'.
  assert (Henc : forall g m u,
             toU128 (ExponentialCurveConfig.default g (Num m)) = Ok u ->
             encoded g m u).
  { intros [[x | v] |] m u Hu; cbn in Hu |- *.
    - now apply toU128_encodes.
    - now injection Hu as <-.
    - now apply toU128_encodes. }
  split; [now apply Henc |]. split; [now apply Henc |].
  destruct pow, frac; reflexivity.
Qed.

Lemma exponential_toRawConfig_witness :
  let cfg :=
    {| ExponentialCurveConfig.c := 2500000000000;
       ExponentialCurveConfig.b := 0;
       ExponentialCurveConfig.pow := ofZ 1;
       ExponentialCurveConfig.frac := ofZ 2 |} in
  ExponentialCurveConfig.new (Some (Num (dec "2.5"))) None None (Some (ofZ 2))
  = Ok cfg /\
  exists c' b',
    encodes (dec "2.5") c' /\
    encodes (ofZ 0) b' /\
    toRawConfig cfg
    = {| Raw.definition :=
           Raw.timeV0
             {| Raw.curves :=
                  [ {| Raw.offset := 0;
                       Raw.curve :=
                         Raw.exponentialCurveV0
                           {| Raw.c := c'; Raw.b := b';
                              Raw.pow := ofZ 1; Raw.frac := ofZ 2 |} |} ] |} |}.
Proof.
  intro cfg.
  assert (Hrun : ExponentialCurveConfig.new (Some (Num (dec "2.5"))) None None
                   (Some (ofZ 2)) = Ok cfg)
    by (vm_compute; reflexivity).
  split; [exact Hrun |].
  exact (exponential_toRawConfig (Some (Num (dec "2.5"))) None None
           (Some (ofZ 2)) cfg Hrun).
Defined.
